(** * oidc-authservice: CSRF state codec and authenticators

    A shallow embedding of
    - [sessions/state.go]           ([CreateState], [VerifyState]),
    - [authenticator_session.go]    ([sessionAuthenticator.AuthenticateRequest]),
    - [authenticators/idtoken.go]   ([IDTokenAuthenticator.Authenticate]),
    - [common/util.go]              ([GetBearerToken]) and the error types of
      package [common],
    together with the properties the design document states about them.

    Go values [(v, err)] are pairs of options, a Go panic is the [Panic]
    constructor of [Res], and everything a function mutates (the session
    store, the response writer, the random source) is passed in and out. *)

From Stdlib Require Import ZArith Ascii String List Lia.
From stdpp Require Import base option list gmap strings pretty.

Local Open Scope string_scope.

(** ** Results of Go calls that may panic *)

Inductive Res (A : Type) : Type :=
| Val (a : A)
| Panic (msg : string).
Arguments Val {A} a.
Arguments Panic {A} msg.

#[global] Instance res_ret : MRet Res := fun _ a => Val a.
#[global] Instance res_bind : MBind Res := fun _ _ k m =>
  match m with
  | Val a => k a
  | Panic msg => Panic msg
  end.

(** [xs[i]] on a Go slice: a run-time panic when [i] is out of range. *)
Definition index {A : Type} (xs : list A) (i : nat) : Res A :=
  match xs !! i with
  | Some x => Val x
  | None => Panic "runtime error: index out of range"
  end.

(** ** Package [strings] of the Go standard library (the functions used) *)
Module GoStrings.

Fixpoint HasPrefix (s prefix : string) {struct prefix} : bool :=
  match prefix, s with
  | EmptyString, _ => true
  | String p prefix', String c s' => if decide (p = c) then HasPrefix s' prefix' else false
  | String _ _, EmptyString => false
  end.

Fixpoint drop_chars (n : nat) (s : string) : string :=
  match n, s with
  | O, _ => s
  | S n', String _ s' => drop_chars n' s'
  | S _, EmptyString => EmptyString
  end.

Definition TrimPrefix (s prefix : string) : string :=
  if HasPrefix s prefix then drop_chars (String.length prefix) s else s.

(** [genSplit] for a non-empty separator: [cur] is the piece being
    collected, [skip] counts the characters of a separator occurrence that
    are still to be passed over. *)
Fixpoint split_go (sep : string) (s : string) (skip : nat) (cur : string) : list string :=
  match s with
  | EmptyString => [cur]
  | String c s' =>
      match skip with
      | S k => split_go sep s' k cur
      | O =>
          if HasPrefix s sep
          then cur :: split_go sep s' (String.length sep - 1) EmptyString
          else split_go sep s' O (cur +:+ String c EmptyString)
      end
  end.

(** [strings.Split(s, sep)]; an empty separator explodes [s] into its
    characters. *)
Definition Split (s sep : string) : list string :=
  match sep with
  | EmptyString => (fun c => String c EmptyString) <$> list_ascii_of_string s
  | _ => split_go sep s O EmptyString
  end.

(** White space of [strings.TrimSpace] among the ASCII bytes.  Strings are
    byte strings here and are not decoded as UTF-8, so [TrimSpace] below is
    that of Go on strings of ASCII bytes. *)
Definition isSpace (c : ascii) : bool :=
  let n := nat_of_ascii c in
  (n =? 32)%nat || ((9 <=? n)%nat && (n <=? 13)%nat).

Fixpoint trimLeft (s : string) : string :=
  match s with
  | String c s' => if isSpace c then trimLeft s' else s
  | EmptyString => EmptyString
  end.

Fixpoint trimRight (s : string) : string :=
  match s with
  | EmptyString => EmptyString
  | String c s' =>
      match trimRight s' with
      | EmptyString => if isSpace c then EmptyString else String c EmptyString
      | t => String c t
      end
  end.

Definition TrimSpace (s : string) : string := trimRight (trimLeft s).

End GoStrings.

(** ** Errors: [github.com/pkg/errors] and the error types of package [common] *)
Module Errors.

(** [RequestError] (package [common], called [svc] by the session
    authenticator) carries the provider's HTTP response; only the status
    code of the response is ever read. *)
#[warnings="-register-all"] Inductive error : Type :=
| errorString (msg : string)                     (* errors.New, errors.Errorf *)
| withMessage (cause : error) (msg : string)     (* errors.Wrap, errors.Wrapf *)
| withStack (cause : error)                      (* errors.WithStack *)
| RequestError (StatusCode : Z) (Body : string) (Err : option error).

Definition New (msg : string) : error := errorString msg.
Definition Wrap (err : error) (msg : string) : error := withStack (withMessage err msg).
Definition WithStack (err : error) : error := withStack err.

(** [errors.As(err, &reqErr)] with [reqErr : *RequestError]: the first
    [RequestError] on the [Unwrap] chain, as (status, body, inner error). *)
Fixpoint As_RequestError (err : error) : option (Z * string * option error) :=
  match err with
  | errorString _ => None
  | withMessage cause _ => As_RequestError cause
  | withStack cause => As_RequestError cause
  | RequestError code body inner => Some (code, body, inner)
  end.

(** The [Error()] method. *)
Fixpoint Error (err : error) : string :=
  match err with
  | errorString msg => msg
  | withMessage cause msg => msg +:+ ": " +:+ Error cause
  | withStack cause => Error cause
  | RequestError code body inner =>
      "status: " +:+ pretty code +:+ ", body: " +:+ body +:+ ", err: " +:+
      match inner with
      | Some e => Error e
      | None => "<nil>"
      end
  end.

End Errors.
Export Errors.

(** ** Package [net/http]: the parts of a request and a response the code touches *)
Module Http.

Record Cookie : Type := mkCookie {
  Name : string;
  Value : string;
  MaxAge : Z;
  Path : string;
  Domain : string;
}.

(** A request: the parsed form ([url.Values]), the headers and the cookies
    of the [Cookie] header, in the order they were sent. *)
Record Request : Type := mkRequest {
  Form : gmap string (list string);
  Header : gmap string (list string);
  Cookies : list Cookie;
}.

(** The headers written to a response; [SetCookies] is the list of
    [Set-Cookie] lines, oldest first. *)
Record ResponseWriter : Type := mkResponseWriter {
  RespHeader : gmap string (list string);
  SetCookies : list Cookie;
}.

Definition StatusUnauthorized : Z := 401.

(** [Header.Get]: the first value of the key, or the empty string.  Go looks
    the key up in its canonical form ([textproto.CanonicalMIMEHeaderKey]);
    here the key is taken as it is, which is the same for a key in canonical
    form. *)
Definition Header_Get (h : gmap string (list string)) (key : string) : string :=
  match h !! key with
  | Some (v :: _) => v
  | _ => ""
  end.

(** [Header.Set]: replaces every value of the key, a key in canonical form
    (see [Header_Get]). *)
Definition Header_Set (h : gmap string (list string)) (key value : string)
  : gmap string (list string) :=
  <[key := [value]]> h.

(** [r.FormValue(key)] *)
Definition FormValue (r : Request) (key : string) : string :=
  match Form r !! key with
  | Some (v :: _) => v
  | _ => ""
  end.

Fixpoint find_cookie (cs : list Cookie) (name : string) : option Cookie :=
  match cs with
  | [] => None
  | c :: cs' => if decide (Name c = name) then Some c else find_cookie cs' name
  end.

(** [r.Cookie(name)]: the first cookie of that name; [None] stands for
    [http.ErrNoCookie]. *)
Definition Request_Cookie (r : Request) (name : string) : option Cookie :=
  find_cookie (Cookies r) name.

Definition ErrNoCookie : error := errorString "http: named cookie not present".

(** [http.SetCookie(w, c)] appends a [Set-Cookie] line. *)
Definition SetCookie (w : ResponseWriter) (c : Cookie) : ResponseWriter :=
  {| RespHeader := RespHeader w; SetCookies := SetCookies w ++ [c] |}.

(** [w.Header().Set(key, value)] for a key other than [Set-Cookie], whose
    lines are kept in [SetCookies]. *)
Definition Response_Set (w : ResponseWriter) (key value : string) : ResponseWriter :=
  {| RespHeader := Header_Set (RespHeader w) key value; SetCookies := SetCookies w |}.

(** A request whose only header is [Cookie: <w.Header().Get("Set-Cookie")>]:
    the first [Set-Cookie] line read back as a cookie. *)
Definition request_of_first_SetCookie (w : ResponseWriter) : Request :=
  {| Form := ∅; Header := ∅;
     Cookies := match SetCookies w with
                | c :: _ => [c]
                | [] => []
                end |}.

End Http.
Export Http.

(** ** Values kept in a session *)

(** [sessions.State] of [sessions/state.go]. *)
Record State : Type := mkState {
  (* FirstVisitedURL is the URL that the user visited when we redirected them
     to login. *)
  FirstVisitedURL : string;
}.

(** [oauth2.Token] *)
Record Token : Type := mkToken {
  AccessToken : string;
  RefreshToken : string;
  TokenExpiry : Z;
}.

(** The dynamically typed values ([interface{}]) a session holds. *)
Inductive SessionValue : Type :=
| VState (s : State)
| VString (s : string)
| VStrings (l : list string)
| VToken (t : Token)
| VOther (gotype : string).

(** ** [github.com/gorilla/sessions] *)
Module Gorilla.

Record Options : Type := mkOptions {
  OptPath : string;
  OptDomain : string;
  OptMaxAge : Z;
}.

Record Session : Type := mkSession {
  ID : string;
  Values : gmap string SessionValue;
  SessOptions : Options;
  IsNew : bool;
  name : string;
}.

(** [sessions.NewSession(store, name)] *)
Definition NewSession (name : string) : Session :=
  {| ID := ""; Values := ∅;
     SessOptions := {| OptPath := ""; OptDomain := ""; OptMaxAge := 0 |};
     IsNew := false; name := name |}.

(** The [sessions.Store] interface over a backing state [Σ]: [Get] reads,
    [Save] persists the session and writes its cookie.  [store_Delete] is
    the [delete(sessionID)] operation of the Session Store contract. *)
Class Store (Σ : Type) : Type := {
  store_Get : Σ -> Request -> string -> Session * option error;
  store_Save : Σ -> Request -> ResponseWriter -> Session
               -> option error * (Σ * ResponseWriter);
  store_Delete : Σ -> ResponseWriter -> Session
                 -> option error * (Σ * ResponseWriter);
}.

End Gorilla.
Export Gorilla.

(** ** Package [sessions]: [sessions/state.go] *)
Module Sessions.
Import GoStrings.

Definition oidcStateCookie : string := "oidc_state_csrf".
Definition sessionValueState : string := "state".
Definition charset : string := "abcdefghijklmnopqrstuvwxyz".

(** [time.Minute] and [(20 * time.Minute).Seconds()], in seconds. *)
Definition Minute_Seconds : Z := 60.
Definition stateMaxAge : Z := 20 * Minute_Seconds.

(** [seededRand]: the draws that [Intn] accepts, in order.  ([Intn] throws
    away the draws above its rejection bound; those never reach a result.)
    [Intn(n)] is the next accepted draw modulo [n], and panics for [n <= 0]. *)
Definition Rand : Type := nat -> nat.

Definition Intn (rnd : Rand) (n : nat) : Res (nat * Rand) :=
  match n with
  | O => Panic "invalid argument to Intn"
  | S _ => Val (rnd O mod n, fun i => rnd (S i))
  end.

(** [charset[i]] *)
Definition byte_at (s : string) (i : nat) : Res ascii :=
  match String.get i s with
  | Some c => Val c
  | None => Panic "runtime error: index out of range"
  end.

(** The loop [for i := range b] of [stringWithCharset], over the [n] bytes
    of the buffer that are still to be filled. *)
Fixpoint fillWithCharset (n : nat) (charset : string) (seededRand : Rand)
  : Res (string * Rand) :=
  match n with
  | O => Val (EmptyString, seededRand)
  | S k =>
      '(i, seededRand) ← Intn seededRand (String.length charset);
      c ← byte_at charset i;
      '(rest, seededRand) ← fillWithCharset k charset seededRand;
      Val (String c rest, seededRand)
  end.

(* stringWithCharset creates a random string of length from charset *)
Definition stringWithCharset (length : Z) (charset : string) (seededRand : Rand)
  : Res (string * Rand) :=
  (* make([]byte, length): panics for a negative length; memory is taken to
     suffice for the buffer otherwise *)
  if (length <? 0)%Z then Panic "runtime error: makeslice: len out of range"
  else fillWithCharset (Z.to_nat length) charset seededRand.

(* randString returns a random string of given length *)
Definition randString (length : Z) (seededRand : Rand) : Res (string * Rand) :=
  stringWithCharset length charset seededRand.

(** [StateFunc]: the strategy computing the [State] of a request
    ([relativeURL] or the closure of [newSchemeAndHost]).  It returns a
    pointer to a [State]; [None] is the nil pointer. *)
Definition StateFunc : Type := Request -> option State.

(** [*s] *)
Definition deref_State (s : option State) : Res State :=
  match s with
  | Some v => Val v
  | None => Panic "runtime error: invalid memory address or nil pointer dereference"
  end.

(** Modelled from the spec: [revokeSession] of package [sessions] is not among
    the sources.  It is the revocation of the Session Manager restricted to
    the local part: it deletes the Session Store record of the session, and
    reports the store's error when the deletion fails. *)
Definition revokeSession {Σ : Type} `{!Store Σ} (w : ResponseWriter) (session : Session)
    (store : Σ) : option error * (Σ * ResponseWriter) :=
  let '(err, (store, w)) := store_Delete store w session in
  match err with
  | Some e => (Some (Wrap e "Couldn't delete user session"), (store, w))
  | None => (None, (store, w))
  end.

(** [session.Values[sessionValueState].(State)] *)
Definition assert_State (v : option SessionValue) : Res State :=
  match v with
  | Some (VState s) => Val s
  | _ => Panic "interface conversion: interface {} is not sessions.State"
  end.

Definition ErrMissingParameter : error := New "Missing url parameter: state".
Definition ErrMissingCookie (oidcStateCookieName : string) : error :=
  New ("Missing cookie: '" +:+ oidcStateCookieName +:+ "'").
Definition ErrMismatch : error :=
  New ("State value from http params doesn't match " +:+
       "value in cookie. Possible reasons for this error include " +:+
       "opening the login form in more than 1 browser tabs OR a CSRF " +:+
       "attack.").
Definition ErrExpired : error := New "State value not found in store, maybe it expired".

Section WithStore.
Context {Σ : Type} `{!Store Σ}.

(* CreateState creates the state parameter from the incoming request, stores
   it in the session store and sets a cookie with the session key.
   It returns the session key, which can be used as the state value to start
   an OIDC authentication request. *)
Definition CreateState (r : Request) (w : ResponseWriter) (store : Σ)
    (sessionDomain : string) (fn : StateFunc) (dynamicOidcStateCookieName : bool)
    (seededRand : Rand)
  : Res ((string * option error) * (Σ * ResponseWriter * Rand)) :=
  '(nonce, seededRand) ← randString 8%Z seededRand;
  let oidcStateCookieName :=
    if dynamicOidcStateCookieName then oidcStateCookie +:+ "_" +:+ nonce
    else oidcStateCookie in
  let s := fn r in
  let session := NewSession oidcStateCookieName in
  v ← deref_State s;
  let session :=
    {| ID := ID session;
       Values := <[sessionValueState := VState v]> (Values session);
       SessOptions := {| OptPath := "/"; OptDomain := sessionDomain;
                         OptMaxAge := stateMaxAge |};
       IsNew := IsNew session;
       name := name session |} in
  let '(err, (store, w)) := store_Save store r w session in
  match err with
  | Some e => Val (("", Some (Wrap e "error trying to save session")), (store, w, seededRand))
  | None =>
      (* Cookie is persisted in ResponseWriter, make a request to parse it. *)
      let tempReq := request_of_first_SetCookie w in
      match Request_Cookie tempReq oidcStateCookieName with
      | None =>
          Val (("", Some (Wrap ErrNoCookie "error trying to save session")),
               (store, w, seededRand))
      | Some c =>
          let stateValue :=
            if dynamicOidcStateCookieName then Value c +:+ "." +:+ nonce
            else Value c in
          Val ((stateValue, None), (store, w, seededRand))
      end
  end.

(* VerifyState gets the state from the cookie 'initState' saved. It also gets
   the state from an http param and:
    1. Confirms the two values match (CSRF check).
    2. Confirms the value is still valid by retrieving the session it points to.
       The state value might be invalid if it has been used before or the session
       expired.
   Finally, it returns a State struct, which contains information associated
   with the particular OIDC flow. *)
Definition VerifyState (r : Request) (w : ResponseWriter) (store : Σ)
    (dynamicOidcStateCookieName : bool)
  : Res ((option State * option error) * (Σ * ResponseWriter)) :=
  (* Get the state from the HTTP param. *)
  let stateParam := FormValue r "state" in
  if decide (String.length stateParam = 0%nat) then
    Val ((None, Some ErrMissingParameter), (store, w))
  else
    '(stateValue, nonce, oidcStateCookieName) ←
      (if dynamicOidcStateCookieName then
         let stateParamParts := Split stateParam "." in
         stateValue ← index stateParamParts 0;
         nonce ← index stateParamParts 1;
         Val (stateValue, nonce, oidcStateCookie +:+ "_" +:+ nonce)
       else Val (stateParam, "", oidcStateCookie));
    (* Get the state from the cookie the user-agent sent. *)
    match Request_Cookie r oidcStateCookieName with
    | None => Val ((None, Some (ErrMissingCookie oidcStateCookieName)), (store, w))
    | Some stateCookie =>
        (* Confirm the two values match. *)
        if decide (stateValue ≠ Value stateCookie) then
          Val ((None, Some ErrMismatch), (store, w))
        else
          (* Retrieve session from store. If it doesn't exist, it may have expired. *)
          let '(session, err) := store_Get store r oidcStateCookieName in
          match err with
          | Some e => Val ((None, Some (WithStack e)), (store, w))
          | None =>
              if IsNew session then Val ((None, Some ErrExpired), (store, w))
              else
                state ← assert_State (Values session !! sessionValueState);
                (* Revoke the session so that each state value can only be used once. *)
                let '(err, (store, w)) := revokeSession w session store in
                match err with
                | Some e =>
                    Val ((None, Some (Wrap e "error revoking state session")), (store, w))
                | None => Val ((Some state, None), (store, w))
                end
          end
    end.

End WithStore.

(** *** The Session Store *)

(** A stored record: the session's values and its time to live in seconds. *)
Record StoredRecord : Type := mkStoredRecord {
  recValues : gmap string SessionValue;
  recTTL : Z;
}.

(** Modelled from the spec: the Session Store behind [sessions.Store] is not
    among the sources.  It is a key/value store of session records keyed by a
    random session identifier: [create] gives a new record a fresh identifier,
    [get] signals a missing record by [isNew = true] without an error, [save]
    writes the record under the session's identifier, [delete] removes it.
    The session cookie carries the identifier.  [idSource] is the supply of
    fresh identifiers and [issued] counts the ones handed out.  A record keeps
    its TTL; the clock that expires it is not part of the model. *)
Record Bucket : Type := mkBucket {
  records : gmap string StoredRecord;
  idSource : nat -> string;
  issued : nat;
}.

(** Modelled from the spec: [get] of the Session Store, reached through the
    cookie [name] of the request; a missing cookie or a missing record gives
    a new session. *)
Definition bucket_Get (b : Bucket) (r : Request) (name : string) : Session * option error :=
  let fresh := {| ID := ""; Values := ∅;
                  SessOptions := {| OptPath := ""; OptDomain := ""; OptMaxAge := 0 |};
                  IsNew := true; name := name |} in
  match Request_Cookie r name with
  | None => (fresh, None)
  | Some c =>
      match records b !! Value c with
      | None => (fresh, None)
      | Some rec =>
          ({| ID := Value c; Values := recValues rec;
              SessOptions := {| OptPath := ""; OptDomain := ""; OptMaxAge := recTTL rec |};
              IsNew := false; name := name |}, None)
      end
  end.

(** Modelled from the spec: [create] (for a session without identifier) and
    [save] of the Session Store; the record keeps the session's values and
    its MaxAge as TTL, and the cookie of the session is written. *)
Definition bucket_Save (b : Bucket) (r : Request) (w : ResponseWriter) (s : Session)
  : option error * (Bucket * ResponseWriter) :=
  let '(id, issued) :=
    if decide (ID s = "") then (idSource b (issued b), S (issued b))
    else (ID s, issued b) in
  let rec := {| recValues := Values s; recTTL := OptMaxAge (SessOptions s) |} in
  (None,
   ({| records := <[id := rec]> (records b); idSource := idSource b; issued := issued |},
    SetCookie w {| Name := name s; Value := id; MaxAge := OptMaxAge (SessOptions s);
                   Path := OptPath (SessOptions s); Domain := OptDomain (SessOptions s) |})).

(** Modelled from the spec: [delete] of the Session Store; the cookie of
    the session is expired. *)
Definition bucket_Delete (b : Bucket) (w : ResponseWriter) (s : Session)
  : option error * (Bucket * ResponseWriter) :=
  (None,
   ({| records := delete (ID s) (records b); idSource := idSource b; issued := issued b |},
    SetCookie w {| Name := name s; Value := ""; MaxAge := -1;
                   Path := OptPath (SessOptions s); Domain := OptDomain (SessOptions s) |})).

#[global] Instance bucket_Store : Store Bucket :=
  {| store_Get := bucket_Get; store_Save := bucket_Save; store_Delete := bucket_Delete |}.

End Sessions.

(** ** Package [common]: [common/util.go] *)
Module Common.
Import GoStrings.

Record User : Type := mkUser {
  Name : string;
  UID : string;
  Groups : list string;
  Extra : gmap string (list string);
}.

(** [&common.User{}]: every field at its zero value. *)
Definition emptyUser : User :=
  {| Name := ""; UID := ""; Groups := []; Extra := ∅ |}.

Definition GetBearerToken (value : string) : string :=
  let value := TrimSpace value in
  if HasPrefix value "Bearer " then TrimPrefix value "Bearer "
  else value.

(** [svc.TlsConfig]: the CA bundles trusted when talking to the provider. *)
Record TlsConfig : Type := mkTlsConfig {
  caBundles : list string;
}.

(** The dynamic type check [elem.(string)] on one element. *)
Definition elem_string (elem : SessionValue) : Res string :=
  match elem with
  | VString s => Val s
  | _ => Panic "interface conversion: interface {} is not string"
  end.

Fixpoint append_strings (res : list string) (rest : list SessionValue) : Res (list string) :=
  match rest with
  | [] => Val res
  | elem :: rest =>
      s ← elem_string elem;
      append_strings (res ++ [s])%list rest
  end.

(** [InterfaceSliceToStringSlice]; [None] is the nil slice. *)
Definition InterfaceSliceToStringSlice (in_ : option (list SessionValue))
  : Res (option (list string)) :=
  match in_ with
  | None => Val None
  | Some elems =>
      res ← append_strings [] elems;
      Val (Some res)
  end.

(** [crypto/rand.Read] on a buffer of the given length: it fails, or it
    fills the buffer, position [i] getting the byte the answer gives for [i]. *)
Definition RandRead : Type := nat -> (nat -> Byte.byte) + error.

Definition nonceChars : string :=
  "abcdefghijklmnopqrstuvwxyz:ABCDEFGHIJKLMNOPQRSTUVWXYZ-0123456789".

(** [nonceChars[int(b) % len(nonceChars)]] *)
Definition nonceChar (b : Byte.byte) : Res ascii :=
  match String.get (Byte.to_nat b mod String.length nonceChars) nonceChars with
  | Some c => Val c
  | None => Panic "runtime error: index out of range"
  end.

Fixpoint nonceString (nonce : list Byte.byte) : Res string :=
  match nonce with
  | [] => Val EmptyString
  | b :: rest =>
      c ← nonceChar b;
      s ← nonceString rest;
      Val (String c s)
  end.

Definition createNonce (length : Z) (rand_Read : RandRead) : Res (string * option error) :=
  (* nonce := make([]byte, length): panics for a negative length; memory is
     taken to suffice for the buffer otherwise *)
  if (length <? 0)%Z then Panic "runtime error: makeslice: len out of range"
  else
    match rand_Read (Z.to_nat length) with
    | inr err => Val ("", Some err)
    | inl filled =>
        let nonce := map filled (seq 0 (Z.to_nat length)) in
        s ← nonceString nonce;
        Val (s, None)
    end.

(** [ParseJWT], over the decoder [base64.RawURLEncoding.DecodeString]. *)
Definition ParseJWT (DecodeString : string -> list Byte.byte + error) (p : string)
  : Res (option (list Byte.byte) * option error) :=
  let parts := Split p "." in
  if (length parts <? 3)%nat then
    Val (None, Some (New ("malformed jwt, expected 3 parts got " +:+ pretty (length parts))))
  else
    part ← index parts 1;
    match DecodeString part with
    | inr err => Val (None, Some (New ("malformed jwt payload: " +:+ Error err)))
    | inl payload => Val (Some payload, None)
    end.

(* This function examines if there is at least one common element between
   two []string objects. *)
Definition Contains (sli ele : list string) : bool :=
  existsb (fun s => existsb (fun elem => bool_decide (s = elem)) ele) sli.

End Common.

(** ** Package [oidc]: claims of a verified ID token and the session interfaces *)
Module Oidc.

Inductive ClaimValue : Type :=
| ClaimString (s : string)
| ClaimList (l : list string).

(** A verified ID token; [tokenClaims] is [None] when its payload cannot be
    decoded into a claims object. *)
Record IDToken : Type := mkIDToken {
  tokenClaims : option (gmap string ClaimValue);
}.

Record Claims : Type := mkClaims {
  rawClaims : gmap string ClaimValue;
  userIDClaim : string;
  groupsClaim : string;
}.

(** Modelled from the spec: [NewClaims] and the methods of [Claims] are not
    among the sources.  They extract the userID and groups claims of the
    token under the configured claim names; asking for the userID fails when
    the token carries no such claim, and the groups default to none. *)
Definition NewClaims (token : IDToken) (userIDClaim groupsClaim : string)
  : Claims + error :=
  match tokenClaims token with
  | None => inr (New "unable to decode the claims of the id token")
  | Some m =>
      inl {| rawClaims := m; userIDClaim := userIDClaim; groupsClaim := groupsClaim |}
  end.

(** Modelled from the spec: the userID of the claims, an error when the
    claim is absent. *)
Definition Claims_UserID (c : Claims) : string * option error :=
  match rawClaims c !! userIDClaim c with
  | Some (ClaimString s) => (s, None)
  | _ => ("", Some (New "the userID claim does not exist in the id token"))
  end.

(** Modelled from the spec: the groups of the claims, none by default. *)
Definition Claims_Groups (c : Claims) : list string :=
  match rawClaims c !! groupsClaim c with
  | Some (ClaimList l) => l
  | _ => []
  end.

(** Modelled from the spec: the keys of a user session's values are constants
    of this package that are not among the sources; they are named after the
    fields of the Session record. *)
Definition UserSessionUserID : string := "userID".
(** Modelled from the spec: the key of the [groups] field of a Session. *)
Definition UserSessionGroups : string := "groups".
(** Modelled from the spec: the key of the [oauth2Tokens] field of a Session. *)
Definition UserSessionOAuth2Tokens : string := "oauth2Tokens".

(** The [SessionStore] interface of the session authenticator, over the
    backing state [Σ]. *)
Record SessionStore (Σ : Type) : Type := mkSessionStore {
  SessionFromRequest : Σ -> Request -> Session * option error;
}.
Arguments SessionFromRequest {Σ} _ _ _.

(** The [SessionManager] interface, as far as the session authenticator uses
    it.  [GetUserInfo] is the provider's answer for a token ([None]: the
    UserInfo was returned); [RevokeSession] acts on the backing state. *)
Record SessionManager (Σ : Type) : Type := mkSessionManager {
  GetUserInfo : Token -> option error;
  RevokeSession : Σ -> ResponseWriter -> Session -> option error * (Σ * ResponseWriter);
}.
Arguments GetUserInfo {Σ} _ _.
Arguments RevokeSession {Σ} _ _ _ _.

End Oidc.

(** ** Package [main]: [authenticator_session.go] *)
Module SessionAuthenticator.
Import Common Oidc.

(** [user.DefaultInfo] and [authenticator.Response] of the Kubernetes
    API server library. *)
Record DefaultInfo : Type := mkDefaultInfo {
  Name : string;
  UID : string;
  Groups : list string;
  Extra : gmap string (list string);
}.

Record Response : Type := mkResponse {
  User : DefaultInfo;
}.

Record sessionAuthenticator (Σ : Type) : Type := mkSessionAuthenticator {
  (* store is the session store. *)
  store : SessionStore Σ;
  (* strictSessionValidation mode checks the validity of the access token
     connected with the session on every request. *)
  strictSessionValidation : bool;
  (* tlsCfg manages the bundles for CAs to trust when talking with the
     OIDC Provider. Relevant only when strictSessionValidation is enabled. *)
  tlsCfg : TlsConfig;
  (* sm is responsible for managing OIDC sessions *)
  sm : SessionManager Σ;
}.
Arguments store {Σ} _.
Arguments strictSessionValidation {Σ} _.
Arguments tlsCfg {Σ} _.
Arguments sm {Σ} _.

(** [httptest.NewRecorder()] *)
Definition NewRecorder : ResponseWriter := {| RespHeader := ∅; SetCookies := [] |}.

(** [session.Values[oidc.UserSessionOAuth2Tokens].(oauth2.Token)] *)
Definition assert_Token (v : option SessionValue) : Res Token :=
  match v with
  | Some (VToken t) => Val t
  | _ => Panic "interface conversion: interface {} is not oauth2.Token"
  end.

(** [session.Values[oidc.UserSessionUserID].(string)] *)
Definition assert_string (v : option SessionValue) : Res string :=
  match v with
  | Some (VString s) => Val s
  | _ => Panic "interface conversion: interface {} is not string"
  end.

(** The last part of [AuthenticateRequest], from the groups default on. *)
Definition identityOf {Σ : Type} (session : Session) (backend : Σ)
  : Res ((option Response * bool * option error) * Σ) :=
  (* Data written at a previous version might not have groups stored, so
     default to an empty list of strings. *)
  let groups :=
    match Values session !! UserSessionGroups with
    | Some (VStrings groups) => groups
    | _ => []
    end in
  userID ← assert_string (Values session !! UserSessionUserID);
  let resp := {| User := {| Name := userID; UID := ""; Groups := groups; Extra := ∅ |} |} in
  Val ((Some resp, true, None), backend).

Definition AuthenticateRequest {Σ : Type} (sa : sessionAuthenticator Σ) (r : Request)
    (backend : Σ) : Res ((option Response * bool * option error) * Σ) :=
  (* Get session from header or cookie *)
  let '(session, err) := SessionFromRequest (store sa) backend r in
  (* Check if user session is valid *)
  match err with
  | Some e => Val ((None, false, Some (Wrap e "couldn't get user session")), backend)
  | None =>
      if IsNew session then Val ((None, false, None), backend)
      else
        (* User is logged in *)
        if strictSessionValidation sa then
          token ← assert_Token (Values session !! UserSessionOAuth2Tokens);
          match GetUserInfo (sm sa) token with
          | Some err =>
              match As_RequestError err with
              | None =>
                  Val ((None, false, Some (Wrap err "UserInfo request failed unexpectedly")),
                       backend)
              | Some (StatusCode, _, _) =>
                  if decide (StatusCode ≠ StatusUnauthorized) then
                    Val ((None, false,
                          Some (Wrap err ("UserInfo request with unexpected code '"
                                          +:+ pretty StatusCode +:+ "'"))),
                         backend)
                  else
                    (* Access token has expired; a failure to revoke is only logged *)
                    let '(_, (backend, _)) :=
                      RevokeSession (sm sa) backend NewRecorder session in
                    Val ((None, false, None), backend)
              end
          | None => identityOf session backend
          end
        else identityOf session backend
  end.

(** Modelled from the spec: the implementations behind [oidc.SessionStore] and
    [oidc.SessionManager] are not among the sources.  The session store
    resolves a session from the request's header or cookie via the Session
    Store.  Revocation deletes the local Session Store record and attempts to
    invalidate the tokens at the provider; the local deletion succeeds even
    if the provider-side revocation fails, and that failure is what the
    caller gets to log. *)
Definition bucket_SessionFromRequest (cookie header : string) (b : Sessions.Bucket)
    (r : Request) : Session * option error :=
  let sessionID := GetBearerToken (Header_Get (Header r) header) in
  if decide (sessionID ≠ "") then
    Sessions.bucket_Get b
      {| Form := ∅; Header := ∅;
         Cookies := [{| Http.Name := cookie; Value := sessionID; MaxAge := 0;
                        Path := ""; Domain := "" |}] |}
      cookie
  else Sessions.bucket_Get b r cookie.

(** Modelled from the spec: the session store of the session authenticator
    over the Session Store. *)
Definition bucketSessionStore (cookie header : string) : SessionStore Sessions.Bucket :=
  {| SessionFromRequest := bucket_SessionFromRequest cookie header |}.

(** Modelled from the spec: [revoke] of the Session Manager; the local
    deletion comes first and always succeeds, the provider's answer is the
    result. *)
Definition bucket_RevokeSession (providerRevoke : Token -> option error)
    (b : Sessions.Bucket) (w : ResponseWriter) (session : Session)
  : option error * (Sessions.Bucket * ResponseWriter) :=
  let '(_, (b, w)) := Sessions.bucket_Delete b w session in
  match Values session !! UserSessionOAuth2Tokens with
  | Some (VToken t) => (providerRevoke t, (b, w))
  | _ => (None, (b, w))
  end.

(** Modelled from the spec: the Session Manager over the Session Store and
    a provider given by its answers. *)
Definition bucketSessionManager (userInfo providerRevoke : Token -> option error)
  : SessionManager Sessions.Bucket :=
  {| GetUserInfo := userInfo; RevokeSession := bucket_RevokeSession providerRevoke |}.

End SessionAuthenticator.

(** ** Package [authenticators]: [authenticators/idtoken.go] *)
Module Authenticators.
Import Common Oidc.

(** [sessions.SessionManager], as far as this authenticator uses it: the
    verification of a raw ID token (signature, issuer, expiry; no audience),
    which gives the verified token or an error. *)
Record Sessions_SessionManager : Type := mkSessionManager {
  VerifyWithoutClientId : string -> IDToken + error;
}.

Record IDTokenAuthenticator : Type := mkIDTokenAuthenticator {
  Header : string;         (* header name where id token is stored *)
  UserIDClaim : string;    (* retrieve the userid if the claim exists *)
  GroupsClaim : string;
  SessionManager : Sessions_SessionManager;
  TLSConfig : TlsConfig;
  TokenHeader : string;    (* the header that is set by the authenticator containing the user id token *)
  TokenScheme : string;    (* the authorization scheme used for sending the user id token *)
}.

Definition NewIDTokenAuthenticator (header userIDClaim groupsClaim : string)
    (tlsCfg : TlsConfig) (sm : Sessions_SessionManager) (th ts : string) : IDTokenAuthenticator :=
  {| Header := header; UserIDClaim := userIDClaim; GroupsClaim := groupsClaim;
     SessionManager := sm; TLSConfig := tlsCfg; TokenHeader := th; TokenScheme := ts |}.

Definition Authenticate (s : IDTokenAuthenticator) (w : ResponseWriter) (r : Request)
  : (option User * bool * option error) * ResponseWriter :=
  (* get id-token from header *)
  let bearer := GetBearerToken (Header_Get (Http.Header r) (Header s)) in
  if decide (String.length bearer = 0%nat) then ((None, false, None), w)
  else
    (* Verifying received ID token *)
    match VerifyWithoutClientId (SessionManager s) bearer with
    | inr err => ((None, false, None), w)
    | inl token =>
        match NewClaims token (UserIDClaim s) (GroupsClaim s) with
        | inr err => ((None, false, None), w)
        | inl claims =>
            (* set auth header with client token *)
            let idHeader := bearer in
            (* prepend authorization scheme if one is specified *)
            let idHeader :=
              if decide (TokenScheme s ≠ "") then TokenScheme s +:+ " " +:+ idHeader
              else idHeader in
            let w := Response_Set w (TokenHeader s) idHeader in
            match Claims_UserID claims with
            | (_, Some err) =>
                (* this token doesn't have a userid claim (or the associated groups)
                   we return an empty user here because this is expected in the case
                   of client credentials flows *)
                ((Some emptyUser, true, None), w)
            | (userID, None) =>
                let groups := Claims_Groups claims in
                (* Authentication using header successfully completed *)
                let extra : gmap string (list string) := {[ "auth-method" := ["header"] ]} in
                let user := {| Name := userID; UID := ""; Groups := groups; Extra := extra |} in
                ((Some user, true, None), w)
            end
        end
    end.

End Authenticators.

(** ** Package [main]: the authenticators enabled in [main.go] *)
Module Main.

(** [enabledAuthenticators]: the set of the configured names. *)
Definition enabledAuthenticators (names : list string) : gmap string bool :=
  foldl (fun m authenticator => <[authenticator := true]> m) ∅ names.

(** [enabledAuthenticators[name]]; a missing key reads as [false]. *)
Definition enabled (m : gmap string bool) (name : string) : bool :=
  default false (m !! name).

(** The chain [main] builds, each authenticator standing by its name: the
    Kubernetes authenticator, then the session authenticator, then the
    ID-token authenticator, each if enabled. *)
Definition authenticators (names : list string) : list string :=
  let enabledAuthenticators := enabledAuthenticators names in
  let authenticators := [] in
  let authenticators :=
    if enabled enabledAuthenticators "kubernetes"
    then (authenticators ++ ["kubernetes"])%list else authenticators in
  let authenticators :=
    if enabled enabledAuthenticators "session"
    then (authenticators ++ ["session"])%list else authenticators in
  let authenticators :=
    if enabled enabledAuthenticators "idtoken"
    then (authenticators ++ ["idtoken"])%list else authenticators in
  authenticators.

End Main.
(** * Vocabulary of the statements *)

Import GoStrings Sessions.

(** ** Statements about the state parameter *)

(** How [VerifyState] decodes a state parameter [stateParam]: the
    session-identifier part [stateValue] and the name of the cookie it is
    compared with.  With dynamic naming the parameter is split on ["."] and
    needs a second part, the nonce. *)
Definition state_param_decodes (dynamicOidcStateCookieName : bool) (stateParam : string)
    (stateValue oidcStateCookieName : string) : Prop :=
  if dynamicOidcStateCookieName then
    exists nonce rest,
      Split stateParam "." = stateValue :: nonce :: rest /\
      oidcStateCookieName = oidcStateCookie +:+ "_" +:+ nonce
  else
    stateValue = stateParam /\ oidcStateCookieName = oidcStateCookie.

(** The store after the record of [id] is deleted, and the cookie that
    tells the browser to drop the state cookie [cookieName]. *)
Definition bucket_without (b : Bucket) (id : string) : Bucket :=
  {| records := delete id (records b); idSource := idSource b; issued := issued b |}.

Definition droppedCookie (cookieName : string) : Cookie :=
  {| Http.Name := cookieName; Value := ""; MaxAge := -1; Path := ""; Domain := "" |}.

(** The ways [VerifyState] returns, with the store and response it leaves. *)
Inductive verify_outcome (r : Request) (w : ResponseWriter) (b : Bucket) (dyn : bool)
  : (option State * option error) * (Bucket * ResponseWriter) -> Prop :=
| out_missing_parameter :
    FormValue r "state" = "" ->
    verify_outcome r w b dyn ((None, Some ErrMissingParameter), (b, w))
| out_missing_cookie stateValue cookieName :
    FormValue r "state" <> "" ->
    state_param_decodes dyn (FormValue r "state") stateValue cookieName ->
    Request_Cookie r cookieName = None ->
    verify_outcome r w b dyn ((None, Some (ErrMissingCookie cookieName)), (b, w))
| out_mismatch stateValue cookieName c :
    FormValue r "state" <> "" ->
    state_param_decodes dyn (FormValue r "state") stateValue cookieName ->
    Request_Cookie r cookieName = Some c ->
    Value c <> stateValue ->
    verify_outcome r w b dyn ((None, Some ErrMismatch), (b, w))
| out_expired stateValue cookieName c :
    FormValue r "state" <> "" ->
    state_param_decodes dyn (FormValue r "state") stateValue cookieName ->
    Request_Cookie r cookieName = Some c ->
    Value c = stateValue ->
    records b !! stateValue = None ->
    verify_outcome r w b dyn ((None, Some ErrExpired), (b, w))
| out_verified stateValue cookieName c rec state :
    FormValue r "state" <> "" ->
    state_param_decodes dyn (FormValue r "state") stateValue cookieName ->
    Request_Cookie r cookieName = Some c ->
    Value c = stateValue ->
    records b !! stateValue = Some rec ->
    recValues rec !! sessionValueState = Some (VState state) ->
    verify_outcome r w b dyn
      ((Some state, None),
       (bucket_without b stateValue, SetCookie w (droppedCookie cookieName))).

(** Concrete data for the examples: a store that holds the state of one
    pending login under the identifier ["B"]. *)
Definition exampleState : State := {| FirstVisitedURL := "/app/page?x=1" |}.
Definition exampleRecord : StoredRecord :=
  {| recValues := {[ sessionValueState := VState exampleState ]}; recTTL := stateMaxAge |}.
Definition exampleBucket : Bucket :=
  {| records := {[ "B" := exampleRecord ]};
     idSource := fun n => "id" +:+ pretty n; issued := 0 |}.
Definition emptyResponse : ResponseWriter := {| RespHeader := ∅; SetCookies := [] |}.
Definition cookie (name value : string) : Cookie :=
  {| Http.Name := name; Value := value; MaxAge := 0; Path := ""; Domain := "" |}.
Definition callback (stateParam : string) (cookies : list Cookie) : Request :=
  {| Form := {[ "state" := [stateParam] ]}; Http.Header := ∅; Cookies := cookies |}.

(** A source of draws and a state strategy for the examples. *)
Definition exampleRand : Rand := fun i => (i * 7 + 3)%nat.
Definition exampleStateFunc : StateFunc := fun _ => Some exampleState.

(** A logged-in user session for the examples, written before groups were
    captured: it holds the user and the tokens, and no groups. *)
Definition exampleToken : Token :=
  {| AccessToken := "access"; RefreshToken := "refresh"; TokenExpiry := 0 |}.
Definition exampleUserRecord : StoredRecord :=
  {| recValues := {[ Oidc.UserSessionUserID := VString "alice";
                     Oidc.UserSessionOAuth2Tokens := VToken exampleToken ]};
     recTTL := 86400 |}.
Definition exampleUserBucket : Bucket :=
  {| records := {[ "S" := exampleUserRecord ]};
     idSource := fun n => "id" +:+ pretty n; issued := 0 |}.
Definition exampleUserRequest : Request :=
  {| Form := ∅; Http.Header := ∅; Cookies := [cookie "authservice_session" "S"] |}.

(** A session authenticator in strict mode over a provider that answers every
    UserInfo request by [answer]. *)
Definition strictAuthenticator (answer : option error)
  : SessionAuthenticator.sessionAuthenticator Bucket :=
  {| SessionAuthenticator.store :=
       SessionAuthenticator.bucketSessionStore "authservice_session" "Authorization";
     SessionAuthenticator.strictSessionValidation := true;
     SessionAuthenticator.tlsCfg := {| Common.caBundles := [] |};
     SessionAuthenticator.sm :=
       SessionAuthenticator.bucketSessionManager (fun _ => answer) (fun _ => None) |}.

Definition lenientAuthenticator : SessionAuthenticator.sessionAuthenticator Bucket :=
  {| SessionAuthenticator.store :=
       SessionAuthenticator.bucketSessionStore "authservice_session" "Authorization";
     SessionAuthenticator.strictSessionValidation := false;
     SessionAuthenticator.tlsCfg := {| Common.caBundles := [] |};
     SessionAuthenticator.sm :=
       SessionAuthenticator.bucketSessionManager (fun _ => None) (fun _ => None) |}.

(** The session [exampleUserRequest] resolves to. *)
Definition exampleUserSession : Session :=
  {| ID := "S"; Values := recValues exampleUserRecord;
     SessOptions := {| OptPath := ""; OptDomain := ""; OptMaxAge := 86400 |};
     IsNew := false; name := "authservice_session" |}.

(** An ID-token authenticator whose verifier accepts every raw token as a
    token with the claims [claims]. *)
Definition exampleIDTokenAuthenticator (claims : gmap string Oidc.ClaimValue)
  : Authenticators.IDTokenAuthenticator :=
  Authenticators.NewIDTokenAuthenticator "Authorization" "email" "groups"
    {| Common.caBundles := [] |}
    {| Authenticators.VerifyWithoutClientId :=
         fun _ => inl {| Oidc.tokenClaims := Some claims |} |}
    "X-Auth-Token" "Bearer".

Definition bearerRequest : Request :=
  {| Form := ∅; Http.Header := {[ "Authorization" := ["Bearer tok"] ]}; Cookies := [] |}.

(** A store is well formed when every record holds a State under the
    state key, as the records written by [CreateState] do. *)
Definition states_well_formed (b : Bucket) : Prop :=
  forall id rec, records b !! id = Some rec ->
    exists state, recValues rec !! sessionValueState = Some (VState state).

(** Strings without a ["."], and strings made of white space only. *)
Definition dot_free (s : string) : Prop := ~ In "."%char (list_ascii_of_string s).
Definition all_space (s : string) : Prop :=
  Forall (fun c => isSpace c = true) (list_ascii_of_string s).

(** The header value the ID-token authenticator sets downstream. *)
Definition idHeaderOf (s : Authenticators.IDTokenAuthenticator) (bearer : string) : string :=
  if decide (Authenticators.TokenScheme s ≠ "")
  then Authenticators.TokenScheme s +:+ " " +:+ bearer else bearer.

(** A source of random bytes that counts up from [start], for the examples. *)
Definition countingRead (start : nat) : Common.RandRead :=
  fun _ => inl (fun i => default Byte.x00 (Byte.of_nat ((start + i) mod 256))).

(** A decoder that accepts every text and yields no bytes, and one that
    rejects every text, for the examples. *)
Definition acceptingDecoder : string -> list Byte.byte + error := fun _ => inl [].
Definition rejectingDecoder : string -> list Byte.byte + error :=
  fun _ => inr (New "illegal base64 data").

(** A response that already carries values under the downstream token
    header, and the authenticator of the examples for a named user. *)
Definition staleResponse : ResponseWriter :=
  {| RespHeader := {[ "X-Auth-Token" := ["stale"; "older"] ]}; SetCookies := [] |}.
Definition aliceAuthenticator : Authenticators.IDTokenAuthenticator :=
  exampleIDTokenAuthenticator {[ "email" := Oidc.ClaimString "alice@example.com" ]}.

(** A user session whose record holds the tokens but no user, and the
    store and session it comes from. *)
Definition namelessUserRecord : StoredRecord :=
  {| recValues := {[ Oidc.UserSessionOAuth2Tokens := VToken exampleToken ]};
     recTTL := 86400 |}.
Definition namelessUserBucket : Bucket :=
  {| records := {[ "S" := namelessUserRecord ]};
     idSource := fun n => "id" +:+ pretty n; issued := 0 |}.
Definition namelessUserSession : Session :=
  {| ID := "S"; Values := recValues namelessUserRecord;
     SessOptions := {| OptPath := ""; OptDomain := ""; OptMaxAge := 86400 |};
     IsNew := false; name := "authservice_session" |}.

(** Every byte value, in order. *)
Definition all_bytes : list Byte.byte :=
  map (fun i => default Byte.x00 (Byte.of_nat i)) (seq 0 256).

(** The byte values that [createNonce] turns into the character [c]. *)
Definition bytes_giving (c : ascii) : list Byte.byte :=
  List.filter (fun b => match Common.nonceChar b with
                   | Val c' => bool_decide (c' = c)
                   | Panic _ => false
                   end) all_bytes.

(** Header values made of ASCII bytes only. *)
Definition ascii_only (s : string) : Prop :=
  Forall (fun c => (nat_of_ascii c < 128)%nat) (list_ascii_of_string s).

(** [validHeaderFieldByte]: the bytes of an HTTP token. *)
Definition validHeaderFieldByte (c : ascii) : bool :=
  let n := nat_of_ascii c in
  ((48 <=? n) && (n <=? 57) || (65 <=? n) && (n <=? 90) || (97 <=? n) && (n <=? 122))%nat
  || bool_decide (In c (list_ascii_of_string "!#$%&'*+-.^_`|~")).

(** The check at the head of [textproto.CanonicalMIMEHeaderKey]: every byte
    is a token byte, no lower-case letter stands first or after a ["-"], and
    no upper-case letter stands elsewhere.  Such a key is its own canonical
    form.  [upper] tells whether the next letter has to be upper case. *)
Fixpoint canonical_from (upper : bool) (key : string) : bool :=
  match key with
  | EmptyString => true
  | String c rest =>
      let n := nat_of_ascii c in
      validHeaderFieldByte c
      && negb (upper && (97 <=? n)%nat && (n <=? 122)%nat)
      && negb (negb upper && (65 <=? n)%nat && (n <=? 90)%nat)
      && canonical_from (bool_decide (c = "-"%char)) rest
  end.

Definition canonical_key (key : string) : Prop := canonical_from true key = true.

(** A response that already sets a state cookie, of value ["OLD"]. *)
Definition staleCookieResponse : ResponseWriter :=
  SetCookie emptyResponse (cookie "oidc_state_csrf" "OLD").
(** * Properties *)

(** ** The embedding on concrete inputs *)

Example Split_three_parts : Split "a.b.c" "." = ["a"; "b"; "c"].
Proof. reflexivity. Qed.

Example Split_no_separator : Split "abc" "." = ["abc"].
Proof. reflexivity. Qed.

Example Split_empty_pieces : Split ".x." "." = [""; "x"; ""].
Proof. reflexivity. Qed.

Example Split_long_separator : Split "a--b-" "--" = ["a"; "b-"].
Proof. reflexivity. Qed.

Example GetBearerToken_scheme : Common.GetBearerToken "  Bearer abc.def  " = "abc.def".
Proof. vm_compute. reflexivity. Qed.

Example GetBearerToken_bare : Common.GetBearerToken "abc.def" = "abc.def".
Proof. vm_compute. reflexivity. Qed.

Example randString_example :
  randString 8 exampleRand = Val ("dkryfmta", fun i => exampleRand (8 + i)%nat).
Proof. reflexivity. Qed.

Example Error_of_wrapped_RequestError :
  Error (Wrap (RequestError 503 "busy" None) "UserInfo request with unexpected code '503'")
  = "UserInfo request with unexpected code '503': status: 503, body: busy, err: <nil>".
Proof. vm_compute. reflexivity. Qed.

(** A login round trip: the state issued by [CreateState] verifies once with
    the cookie that was set, and gives back the State of the first request. *)
Example CreateState_then_VerifyState :
  exists b1 w1 rnd1 b2 w2,
    CreateState (callback "" []) emptyResponse exampleBucket "example.com"
      exampleStateFunc true exampleRand
    = Val (("id0.dkryfmta", None), (b1, w1, rnd1)) /\
    VerifyState (callback "id0.dkryfmta" (SetCookies w1)) emptyResponse b1 true
    = Val ((Some exampleState, None), (b2, w2)) /\
    VerifyState (callback "id0.dkryfmta" (SetCookies w1)) emptyResponse b2 true
    = Val ((None, Some ErrExpired), (b2, emptyResponse)).
Proof.
  eexists _, _, _, _, _. split; [|split].
  - vm_compute. reflexivity.
  - vm_compute. reflexivity.
  - vm_compute. reflexivity.
Qed.

(** ** Strings *)

Lemma length_zero_empty (s : string) : String.length s = 0%nat <-> s = "".
Proof. destruct s; simpl; split; auto; discriminate. Qed.

Lemma append_cons (c : ascii) (s t : string) : String c s +:+ t = String c (s +:+ t).
Proof. reflexivity. Qed.

Lemma append_empty_r (s : string) : s +:+ "" = s.
Proof.
  induction s as [|c s IH]; [reflexivity|].
  rewrite append_cons, IH. reflexivity.
Qed.

Lemma append_assoc (a b c : string) : (a +:+ b) +:+ c = a +:+ (b +:+ c).
Proof.
  induction a as [|x a IH]; [reflexivity|].
  rewrite !append_cons, IH. reflexivity.
Qed.

Lemma HasPrefix_dot (c : ascii) (s : string) :
  HasPrefix (String c s) "." = bool_decide (c = "."%char).
Proof.
  simpl. destruct (decide ("."%char = c)) as [->|Hne].
  - rewrite bool_decide_eq_true_2; reflexivity.
  - rewrite bool_decide_eq_false_2; [reflexivity|]. intros ->. apply Hne. reflexivity.
Qed.

(** A piece that holds no separator is never cut. *)
Lemma split_go_no_dot (s cur : string) :
  ~ In "."%char (list_ascii_of_string s) ->
  split_go "." s 0 cur = [cur +:+ s].
Proof.
  revert cur. induction s as [|c s IH]; intros cur Hno.
  - simpl. rewrite append_empty_r. reflexivity.
  - cbn [split_go]. rewrite HasPrefix_dot.
    rewrite bool_decide_eq_false_2.
    + rewrite IH.
      * rewrite append_assoc. reflexivity.
      * intros Hin. apply Hno. simpl. right. exact Hin.
    + intros ->. apply Hno. simpl. left. reflexivity.
Qed.

Lemma Split_no_dot (s : string) :
  ~ In "."%char (list_ascii_of_string s) -> Split s "." = [s].
Proof. intros Hno. unfold Split. rewrite split_go_no_dot by exact Hno. reflexivity. Qed.

(** ** [VerifyState], one lemma per way out *)

Section VerifyStateFlow.
Context {Σ : Type} `{!Store Σ}.
Implicit Types (r : Request) (w : ResponseWriter) (store : Σ).

Lemma VerifyState_missing_parameter r w store dyn :
  FormValue r "state" = "" ->
  VerifyState r w store dyn = Val ((None, Some ErrMissingParameter), (store, w)).
Proof. intros Hp. unfold VerifyState. rewrite Hp. reflexivity. Qed.

(** Once the parameter decodes, what is left of [VerifyState] is the cookie
    check and the store lookup. *)
Lemma VerifyState_decoded r w store dyn stateValue cookieName :
  FormValue r "state" <> "" ->
  state_param_decodes dyn (FormValue r "state") stateValue cookieName ->
  VerifyState r w store dyn =
    match Request_Cookie r cookieName with
    | None => Val ((None, Some (ErrMissingCookie cookieName)), (store, w))
    | Some stateCookie =>
        if decide (stateValue ≠ Value stateCookie) then
          Val ((None, Some ErrMismatch), (store, w))
        else
          let '(session, err) := store_Get store r cookieName in
          match err with
          | Some e => Val ((None, Some (WithStack e)), (store, w))
          | None =>
              if IsNew session then Val ((None, Some ErrExpired), (store, w))
              else
                state ← assert_State (Values session !! sessionValueState);
                let '(err, (store, w)) := revokeSession w session store in
                match err with
                | Some e =>
                    Val ((None, Some (Wrap e "error revoking state session")), (store, w))
                | None => Val ((Some state, None), (store, w))
                end
          end
    end.
Proof.
  intros Hne Hdec. unfold VerifyState.
  destruct (decide (String.length (FormValue r "state") = 0%nat)) as [Hz|_].
  { apply length_zero_empty in Hz. contradiction. }
  destruct dyn; cbn [state_param_decodes] in Hdec.
  - destruct Hdec as (nonce & rest & Hsplit & ->). rewrite Hsplit. reflexivity.
  - destruct Hdec as [-> ->]. reflexivity.
Qed.

(** The decoding of a parameter is a function of the parameter. *)
Lemma state_param_decodes_fun dyn p v1 n1 v2 n2 :
  state_param_decodes dyn p v1 n1 -> state_param_decodes dyn p v2 n2 ->
  v1 = v2 /\ n1 = n2.
Proof.
  destruct dyn; cbn [state_param_decodes].
  - intros (a & b & H1 & ->) (c & d & H2 & ->). rewrite H1 in H2.
    injection H2 as -> -> _. split; reflexivity.
  - intros [-> ->] [-> ->]. split; reflexivity.
Qed.

(** Whenever [VerifyState] returns (does not panic) on a present parameter,
    the parameter decoded. *)
Lemma VerifyState_returns_decodes r w store dyn out :
  FormValue r "state" <> "" ->
  VerifyState r w store dyn = Val out ->
  exists stateValue cookieName,
    state_param_decodes dyn (FormValue r "state") stateValue cookieName.
Proof.
  intros Hne. unfold VerifyState.
  destruct (decide (String.length (FormValue r "state") = 0%nat)) as [Hz|_].
  { apply length_zero_empty in Hz. contradiction. }
  destruct dyn; cbn [state_param_decodes].
  - destruct (Split (FormValue r "state") ".") as [|a [|b rest]]; cbn; try discriminate.
    intros _. exists a, (oidcStateCookie +:+ "_" +:+ b), b, rest. split; reflexivity.
  - intros _. exists (FormValue r "state"), oidcStateCookie. split; reflexivity.
Qed.

End VerifyStateFlow.

(** ** [VerifyState] over the Session Store *)

(** On a matching cookie the outcome is decided by the store. *)
Lemma VerifyState_bucket_matched r w (b : Bucket) dyn stateValue cookieName c :
  FormValue r "state" <> "" ->
  state_param_decodes dyn (FormValue r "state") stateValue cookieName ->
  Request_Cookie r cookieName = Some c ->
  Value c = stateValue ->
  VerifyState r w b dyn =
    match records b !! stateValue with
    | None => Val ((None, Some ErrExpired), (b, w))
    | Some rec =>
        state ← assert_State (recValues rec !! sessionValueState);
        Val ((Some state, None),
             (bucket_without b stateValue, SetCookie w (droppedCookie cookieName)))
    end.
Proof.
  intros Hne Hdec Hc Hv.
  rewrite (VerifyState_decoded r w b dyn stateValue cookieName Hne Hdec), Hc.
  destruct (decide (stateValue ≠ Value c)) as [Hn|_]; [congruence|].
  cbn [store_Get bucket_Store]. unfold bucket_Get. rewrite Hc, Hv.
  destruct (records b !! stateValue) as [rec|]; [|reflexivity].
  cbn [IsNew Values]. destruct (assert_State _); reflexivity.
Qed.

Lemma verify_outcome_complete r w b dyn out :
  verify_outcome r w b dyn out -> VerifyState r w b dyn = Val out.
Proof.
  intros [Hp | v n Hne Hdec Hc | v n c Hne Hdec Hc Hv | v n c Hne Hdec Hc Hv Hrec
          | v n c rec state Hne Hdec Hc Hv Hrec Hst].
  - apply VerifyState_missing_parameter, Hp.
  - rewrite (VerifyState_decoded r w b dyn v n Hne Hdec), Hc. reflexivity.
  - rewrite (VerifyState_decoded r w b dyn v n Hne Hdec), Hc.
    destruct (decide (v ≠ Value c)) as [_|Hn]; [reflexivity|].
    exfalso. apply Hn. congruence.
  - rewrite (VerifyState_bucket_matched r w b dyn v n c Hne Hdec Hc Hv), Hrec. reflexivity.
  - rewrite (VerifyState_bucket_matched r w b dyn v n c Hne Hdec Hc Hv), Hrec, Hst.
    reflexivity.
Qed.

Lemma verify_outcome_sound r w b dyn out :
  VerifyState r w b dyn = Val out -> verify_outcome r w b dyn out.
Proof.
  intros H.
  destruct (decide (FormValue r "state" = "")) as [Hp|Hne].
  { rewrite (VerifyState_missing_parameter r w b dyn Hp) in H.
    injection H as <-. apply out_missing_parameter, Hp. }
  destruct (VerifyState_returns_decodes r w b dyn out Hne H) as (v & n & Hdec).
  destruct (Request_Cookie r n) as [c|] eqn:Hc.
  - destruct (decide (Value c = v)) as [Hv|Hv].
    + rewrite (VerifyState_bucket_matched r w b dyn v n c Hne Hdec Hc Hv) in H.
      destruct (records b !! v) as [rec|] eqn:Hrec.
      * destruct (recValues rec !! sessionValueState) as [[state| | | |]|] eqn:Hst;
          cbn in H; try discriminate.
        injection H as <-. eapply out_verified; eassumption.
      * injection H as <-. eapply out_expired; eassumption.
    + rewrite (VerifyState_decoded r w b dyn v n Hne Hdec), Hc in H.
      destruct (decide (v ≠ Value c)) as [_|Hn].
      * injection H as <-. eapply out_mismatch; eassumption.
      * exfalso. apply Hn. congruence.
  - rewrite (VerifyState_decoded r w b dyn v n Hne Hdec), Hc in H.
    injection H as <-. eapply out_missing_cookie; eassumption.
Qed.


(** ** The claims about [VerifyState] *)

Lemma Request_Cookie_same_cookies (r1 r2 : Request) (n : string) :
  Cookies r2 = Cookies r1 -> Request_Cookie r2 n = Request_Cookie r1 n.
Proof. unfold Request_Cookie. intros ->. reflexivity. Qed.

(** C1 (state single-use).  Once [VerifyState] has succeeded on a state
    value, a second call that carries the identical state parameter and the
    identical cookies fails with the Expired error, the record not being found
    in the store any more; so a state value verifies at most once. *)
Theorem VerifyState_single_use (r : Request) (w : ResponseWriter) (b : Bucket)
    (dyn : bool) (state : State) (b' : Bucket) (w' : ResponseWriter) :
  VerifyState r w b dyn = Val ((Some state, None), (b', w')) ->
  forall (r2 : Request) (w2 : ResponseWriter),
    FormValue r2 "state" = FormValue r "state" ->
    Cookies r2 = Cookies r ->
    VerifyState r2 w2 b' dyn = Val ((None, Some ErrExpired), (b', w2)).
Proof.
  intros H r2 w2 Hp Hck. apply verify_outcome_sound in H.
  inversion H as [ | | | | v n c rec st Hne Hdec Hc Hv Hrec Hst]; subst.
  apply verify_outcome_complete.
  apply (out_expired _ _ _ _ (Value c) n c).
  - rewrite Hp. exact Hne.
  - rewrite Hp. exact Hdec.
  - rewrite (Request_Cookie_same_cookies r r2 n Hck). exact Hc.
  - reflexivity.
  - cbn [bucket_without records]. apply lookup_delete_eq.
Qed.

Lemma VerifyState_single_use_witness :
  VerifyState (callback "B" [cookie "oidc_state_csrf" "B"])
    (SetCookie emptyResponse (droppedCookie "oidc_state_csrf"))
    (bucket_without exampleBucket "B") false
  = Val ((None, Some ErrExpired),
         (bucket_without exampleBucket "B",
          SetCookie emptyResponse (droppedCookie "oidc_state_csrf"))).
Proof.
  apply (VerifyState_single_use (callback "B" [cookie "oidc_state_csrf" "B"])
           emptyResponse exampleBucket false exampleState
           (bucket_without exampleBucket "B")
           (SetCookie emptyResponse (droppedCookie "oidc_state_csrf"))).
  - vm_compute. reflexivity.
  - reflexivity.
  - reflexivity.
Defined.

(** C2 (CSRF mismatch detection).  When the state cookie carries the value
    [A] and the state parameter decodes to the session-identifier value [B]
    with [A <> B], [VerifyState] fails with the Mismatch error and returns no
    State, whatever the store holds. *)
Theorem VerifyState_csrf_mismatch {Σ : Type} `{!Store Σ} (r : Request)
    (w : ResponseWriter) (store : Σ) (dyn : bool) (A B cookieName : string) (c : Cookie) :
  FormValue r "state" <> "" ->
  state_param_decodes dyn (FormValue r "state") B cookieName ->
  Request_Cookie r cookieName = Some c ->
  Value c = A ->
  A <> B ->
  VerifyState r w store dyn = Val ((None, Some ErrMismatch), (store, w)).
Proof.
  intros Hne Hdec Hc HA HAB.
  rewrite (VerifyState_decoded r w store dyn B cookieName Hne Hdec), Hc.
  destruct (decide (B ≠ Value c)) as [_|Hn]; [reflexivity|].
  exfalso. apply Hn. congruence.
Qed.

Lemma VerifyState_csrf_mismatch_witness :
  VerifyState (callback "B.xyz" [cookie "oidc_state_csrf_xyz" "A"])
    emptyResponse exampleBucket true
  = Val ((None, Some ErrMismatch), (exampleBucket, emptyResponse)).
Proof.
  apply (VerifyState_csrf_mismatch _ _ _ true "A" "B" "oidc_state_csrf_xyz"
           (cookie "oidc_state_csrf_xyz" "A")).
  - vm_compute. discriminate.
  - exists "xyz", []. split; vm_compute; reflexivity.
  - vm_compute. reflexivity.
  - reflexivity.
  - discriminate.
Defined.

(** C4, as the code has it.  When [VerifyState] succeeds, the Session Store
    record of the verified state value is deleted before it returns; when it
    fails, the Session Store is left as it was. *)
Theorem VerifyState_deletes_on_success (r : Request) (w : ResponseWriter) (b : Bucket)
    (dyn : bool) (res : option State * option error) (b' : Bucket) (w' : ResponseWriter) :
  VerifyState r w b dyn = Val (res, (b', w')) ->
  match res with
  | (Some _, _) =>
      exists stateValue cookieName,
        state_param_decodes dyn (FormValue r "state") stateValue cookieName /\
        is_Some (records b !! stateValue) /\
        records b' = delete stateValue (records b) /\
        records b' !! stateValue = None
  | (None, err) => is_Some err /\ b' = b
  end.
Proof.
  intros H. apply verify_outcome_sound in H.
  inversion H as [ | | | | v n c rec st Hne Hdec Hc Hv Hrec Hst]; subst;
    try (split; [eexists; reflexivity | reflexivity]).
  exists (Value c), n. split; [exact Hdec|]. split; [eexists; exact Hrec|].
  split; [reflexivity|]. cbn [bucket_without records]. apply lookup_delete_eq.
Qed.

Lemma VerifyState_deletes_on_success_witness :
  exists stateValue cookieName,
    state_param_decodes true "B.xyz" stateValue cookieName /\
    is_Some (records exampleBucket !! stateValue) /\
    records (bucket_without exampleBucket "B") = delete stateValue (records exampleBucket) /\
    records (bucket_without exampleBucket "B") !! stateValue = None.
Proof.
  apply (VerifyState_deletes_on_success
           (callback "B.xyz" [cookie "oidc_state_csrf_xyz" "B"])
           emptyResponse exampleBucket true (Some exampleState, None)
           (bucket_without exampleBucket "B")
           (SetCookie emptyResponse (droppedCookie "oidc_state_csrf_xyz"))).
  vm_compute. reflexivity.
Defined.

(** C4, as it is stated, fails: a call that fails the CSRF check returns
    with the store untouched, and the record of the state value ["B"] it was
    given is still there. *)
Lemma VerifyState_failure_keeps_record :
  VerifyState (callback "B" [cookie "oidc_state_csrf" "A"]) emptyResponse exampleBucket false
  = Val ((None, Some ErrMismatch), (exampleBucket, emptyResponse)) /\
  records exampleBucket !! "B" = Some exampleRecord.
Proof. split; vm_compute; reflexivity. Qed.

Lemma missing_cookie_message_differs (cookieName : string) :
  Error (ErrMissingCookie cookieName) <> Error ErrMismatch.
Proof.
  unfold ErrMissingCookie, ErrMismatch, New. cbn [Error].
  intros H. vm_compute in H. discriminate H.
Qed.

(** C5, as the code has it.  A missing state cookie and a cookie that differs
    from the parameter both make [VerifyState] return no State and an error,
    but not the same error: the first names the missing cookie, the second is
    the fixed mismatch text, and the two messages are never equal. *)
Theorem VerifyState_csrf_failures_differ {Σ : Type} `{!Store Σ} (r1 r2 : Request)
    (w1 w2 : ResponseWriter) (store1 store2 : Σ) (dyn : bool)
    (v1 n1 v2 n2 : string) (c : Cookie) :
  FormValue r1 "state" <> "" ->
  state_param_decodes dyn (FormValue r1 "state") v1 n1 ->
  Request_Cookie r1 n1 = None ->
  FormValue r2 "state" <> "" ->
  state_param_decodes dyn (FormValue r2 "state") v2 n2 ->
  Request_Cookie r2 n2 = Some c ->
  Value c <> v2 ->
  VerifyState r1 w1 store1 dyn = Val ((None, Some (ErrMissingCookie n1)), (store1, w1)) /\
  VerifyState r2 w2 store2 dyn = Val ((None, Some ErrMismatch), (store2, w2)) /\
  Error (ErrMissingCookie n1) = "Missing cookie: '" +:+ n1 +:+ "'" /\
  Error (ErrMissingCookie n1) <> Error ErrMismatch.
Proof.
  intros Hne1 Hdec1 Hc1 Hne2 Hdec2 Hc2 Hv. repeat split.
  - rewrite (VerifyState_decoded r1 w1 store1 dyn v1 n1 Hne1 Hdec1), Hc1. reflexivity.
  - rewrite (VerifyState_decoded r2 w2 store2 dyn v2 n2 Hne2 Hdec2), Hc2.
    destruct (decide (v2 ≠ Value c)) as [_|Hn]; [reflexivity|].
    exfalso. apply Hn. congruence.
  - apply missing_cookie_message_differs.
Qed.

Lemma VerifyState_csrf_failures_differ_witness :
  VerifyState (callback "B" []) emptyResponse exampleBucket false
  = Val ((None, Some (ErrMissingCookie "oidc_state_csrf")), (exampleBucket, emptyResponse)) /\
  VerifyState (callback "B" [cookie "oidc_state_csrf" "A"]) emptyResponse exampleBucket false
  = Val ((None, Some ErrMismatch), (exampleBucket, emptyResponse)) /\
  Error (ErrMissingCookie "oidc_state_csrf") = "Missing cookie: '" +:+ "oidc_state_csrf" +:+ "'" /\
  Error (ErrMissingCookie "oidc_state_csrf") <> Error ErrMismatch.
Proof.
  apply (VerifyState_csrf_failures_differ (callback "B" [])
           (callback "B" [cookie "oidc_state_csrf" "A"]) emptyResponse emptyResponse
           exampleBucket exampleBucket false "B" "oidc_state_csrf" "B" "oidc_state_csrf"
           (cookie "oidc_state_csrf" "A")).
  - vm_compute. discriminate.
  - split; vm_compute; reflexivity.
  - vm_compute. reflexivity.
  - vm_compute. discriminate.
  - split; vm_compute; reflexivity.
  - vm_compute. reflexivity.
  - vm_compute. discriminate.
Defined.

(** C5, as it is stated, fails: of two runs on the same store, one without
    the state cookie and one with a cookie that differs from the parameter,
    the caller gets two errors whose messages differ. *)
Lemma VerifyState_csrf_failures_distinguishable :
  VerifyState (callback "B" []) emptyResponse exampleBucket false
  = Val ((None, Some (errorString "Missing cookie: 'oidc_state_csrf'")),
         (exampleBucket, emptyResponse)) /\
  VerifyState (callback "B" [cookie "oidc_state_csrf" "A"]) emptyResponse exampleBucket false
  = Val ((None, Some ErrMismatch), (exampleBucket, emptyResponse)) /\
  Error (errorString "Missing cookie: 'oidc_state_csrf'") <> Error ErrMismatch.
Proof.
  split; [vm_compute; reflexivity|]. split; [vm_compute; reflexivity|].
  vm_compute. discriminate.
Qed.

(** C10 (no totality under dynamic naming).  With dynamic cookie naming, a
    non-empty state parameter that holds no ["."] splits into fewer than two
    parts, the access to the nonce part is out of range, and [VerifyState]
    panics instead of returning an error. *)
Theorem VerifyState_dynamic_naming_panics {Σ : Type} `{!Store Σ} (r : Request)
    (w : ResponseWriter) (store : Σ) :
  FormValue r "state" <> "" ->
  ~ In "."%char (list_ascii_of_string (FormValue r "state")) ->
  (length (Split (FormValue r "state") ".") < 2)%nat /\
  index (Split (FormValue r "state") ".") 1 = Panic "runtime error: index out of range" /\
  VerifyState r w store true = Panic "runtime error: index out of range".
Proof.
  intros Hne Hno. unfold VerifyState.
  destruct (decide (String.length (FormValue r "state") = 0%nat)) as [Hz|_].
  { apply length_zero_empty in Hz. contradiction. }
  rewrite (Split_no_dot _ Hno). cbn. split; [lia|]. split; reflexivity.
Qed.

Lemma VerifyState_dynamic_naming_panics_witness :
  (length (Split "abcdef" ".") < 2)%nat /\
  index (Split "abcdef" ".") 1 = Panic "runtime error: index out of range" /\
  VerifyState (callback "abcdef" [cookie "oidc_state_csrf" "abcdef"])
    emptyResponse exampleBucket true
  = Panic "runtime error: index out of range".
Proof.
  apply (VerifyState_dynamic_naming_panics
           (callback "abcdef" [cookie "oidc_state_csrf" "abcdef"])
           emptyResponse exampleBucket).
  - vm_compute. discriminate.
  - vm_compute. intuition discriminate.
Defined.

(** ** [CreateState] *)

Lemma get_in_range (s : string) (i : nat) :
  (i < String.length s)%nat -> exists c, String.get i s = Some c.
Proof.
  revert i. induction s as [|a s IH]; intros i Hi; simpl in Hi; [lia|].
  destruct i as [|i]; simpl; [eauto|]. apply IH. lia.
Qed.

(** A buffer of [n] bytes gives a string of [n] characters. *)
Lemma fillWithCharset_length (n : nat) (cs : string) (rnd : Rand) s rnd' :
  fillWithCharset n cs rnd = Val (s, rnd') -> String.length s = n.
Proof.
  revert rnd s rnd'. induction n as [|n IH]; intros rnd s rnd' H.
  - cbn in H. injection H as <- _. reflexivity.
  - cbn [fillWithCharset] in H.
    destruct (Intn rnd (String.length cs)) as [[i rnd1]|?]; cbn in H; [|discriminate].
    destruct (byte_at cs i) as [c|?]; cbn in H; [|discriminate].
    destruct (fillWithCharset n cs rnd1) as [[rest rnd2]|?] eqn:Hrest; cbn in H;
      [|discriminate].
    injection H as <- _. simpl. f_equal. eapply IH. exact Hrest.
Qed.

(** Over a non-empty character set a draw always lands on a character. *)
Lemma Intn_byte_at (cs : string) (rnd : Rand) :
  cs <> "" ->
  exists i c,
    Intn rnd (String.length cs) = Val (i, fun k => rnd (S k)) /\ byte_at cs i = Val c.
Proof.
  intros Hcs. unfold Intn, byte_at.
  destruct (String.length cs) as [|k] eqn:Hlen.
  { apply length_zero_empty in Hlen. contradiction. }
  destruct (get_in_range cs (rnd 0%nat mod S k)) as [c Hc].
  { rewrite Hlen. apply Nat.mod_upper_bound. discriminate. }
  exists (rnd 0%nat mod S k), c. rewrite Hc. split; reflexivity.
Qed.

(** So the buffer is always filled. *)
Lemma fillWithCharset_total (n : nat) (cs : string) (rnd : Rand) :
  cs <> "" -> exists s rnd', fillWithCharset n cs rnd = Val (s, rnd').
Proof.
  intros Hcs. revert rnd. induction n as [|n IH]; intros rnd.
  - eexists _, _. reflexivity.
  - cbn [fillWithCharset].
    destruct (Intn_byte_at cs rnd Hcs) as (i & c & Hi & Hc). rewrite Hi. cbn.
    rewrite Hc. cbn.
    destruct (IH (fun k => rnd (S k))) as (rest & rnd2 & Hrest). rewrite Hrest. cbn.
    eexists _, _. reflexivity.
Qed.

(** The nonce of [CreateState] is the filling of a buffer of 8 bytes. *)
Lemma randString_8 (rnd : Rand) : randString 8 rnd = fillWithCharset 8 charset rnd.
Proof. reflexivity. Qed.

Lemma randString_8_total (rnd : Rand) :
  exists nonce rnd1, randString 8 rnd = Val (nonce, rnd1).
Proof. rewrite randString_8. apply fillWithCharset_total. discriminate. Qed.

(** Saving a session that has no identifier yet creates a record under the
    next fresh identifier and hands that identifier to the cookie. *)
Lemma bucket_Save_new (b : Bucket) (r : Request) (w : ResponseWriter) (s : Session) :
  ID s = "" ->
  bucket_Save b r w s =
    (None,
     ({| records := <[idSource b (issued b) :=
                        {| recValues := Values s; recTTL := OptMaxAge (SessOptions s) |}]>
                      (records b);
         idSource := idSource b; issued := S (issued b) |},
      SetCookie w {| Http.Name := name s; Value := idSource b (issued b);
                     MaxAge := OptMaxAge (SessOptions s);
                     Path := OptPath (SessOptions s);
                     Domain := OptDomain (SessOptions s) |})).
Proof.
  intros Hid. unfold bucket_Save.
  destruct (decide (ID s = "")) as [_|Hn]; [reflexivity|contradiction].
Qed.

(** C6 ([CreateState] postcondition).  The claim holds of the record's TTL
    and of the cookie's name, and [CreateState] is documented to return the
    session key of the cookie it sets.  It reads that key back from the
    first [Set-Cookie] line of the response, though.  On a response that
    already sets a state cookie of value ["OLD"], the call succeeds and
    returns ["OLD"], while the State record is stored under the fresh
    identifier ["id0"] and the cookie it adds carries ["id0"]: the returned
    state value is not the session identifier of the cookie that was set. *)
Theorem CreateState_returns_stale_cookie_value :
  exists b1 w1 rnd1,
    CreateState (callback "" []) staleCookieResponse exampleBucket "example.com"
      exampleStateFunc false exampleRand
    = Val (("OLD", None), (b1, w1, rnd1)) /\
    records b1 !! "id0"
    = Some {| recValues := {[ sessionValueState := VState exampleState ]};
              recTTL := (20 * 60)%Z |} /\
    records b1 !! "OLD" = None /\
    SetCookies w1
    = [cookie "oidc_state_csrf" "OLD";
       {| Http.Name := "oidc_state_csrf"; Value := "id0"; MaxAge := (20 * 60)%Z;
          Path := "/"; Domain := "example.com" |}].
Proof.
  eexists _, _, _. split; [vm_compute; reflexivity|].
  split; [vm_compute; reflexivity|]. split; vm_compute; reflexivity.
Qed.

(** ** The session authenticator *)

Section SessionAuthenticatorProperties.
Import Oidc SessionAuthenticator.

(** Past the validation of the session, the identity is built from the
    stored values. *)
Lemma identityOf_no_groups {Σ : Type} (session : Session) (backend : Σ) (userID : string) :
  Values session !! UserSessionUserID = Some (VString userID) ->
  (forall groups, Values session !! UserSessionGroups <> Some (VStrings groups)) ->
  identityOf session backend =
    Val ((Some {| User := {| Name := userID; UID := ""; Groups := []; Extra := ∅ |} |},
          true, None), backend).
Proof.
  intros Hu Hg. unfold identityOf. rewrite Hu. cbn.
  destruct (Values session !! UserSessionGroups) as [[| |groups| |]|] eqn:E;
    try reflexivity.
  exfalso. exact (Hg groups eq_refl).
Qed.



(** C7 (group default).  A resolved session whose record has no groups field,
    or a groups value that is not a list of strings, authenticates with an
    empty group set and an identity, not an error.  The session is past its
    validation (strict mode is off, or the provider accepts its token) and
    carries its user as a string, as every Session record does. *)
Theorem AuthenticateRequest_group_default {Σ : Type} (sa : sessionAuthenticator Σ)
    (r : Request) (backend : Σ) (session : Session) (userID : string) :
  SessionFromRequest (store sa) backend r = (session, None) ->
  IsNew session = false ->
  (strictSessionValidation sa = false \/
   exists token, Values session !! UserSessionOAuth2Tokens = Some (VToken token) /\
                 GetUserInfo (sm sa) token = None) ->
  Values session !! UserSessionUserID = Some (VString userID) ->
  (forall groups, Values session !! UserSessionGroups <> Some (VStrings groups)) ->
  AuthenticateRequest sa r backend =
    Val ((Some {| User := {| Name := userID; UID := ""; Groups := []; Extra := ∅ |} |},
          true, None), backend).
Proof.
  intros Hsess Hnew Hvalid Hu Hg.
  unfold AuthenticateRequest. rewrite Hsess, Hnew.
  destruct Hvalid as [Hoff | (token & Htok & Hinfo)].
  - rewrite Hoff. apply identityOf_no_groups; assumption.
  - destruct (strictSessionValidation sa).
    + rewrite Htok. cbn. rewrite Hinfo. apply identityOf_no_groups; assumption.
    + apply identityOf_no_groups; assumption.
Qed.

Lemma AuthenticateRequest_group_default_witness :
  AuthenticateRequest lenientAuthenticator exampleUserRequest exampleUserBucket
  = Val ((Some {| User := {| Name := "alice"; UID := ""; Groups := []; Extra := ∅ |} |},
          true, None), exampleUserBucket) /\
  AuthenticateRequest (strictAuthenticator None) exampleUserRequest exampleUserBucket
  = Val ((Some {| User := {| Name := "alice"; UID := ""; Groups := []; Extra := ∅ |} |},
          true, None), exampleUserBucket).
Proof.
  split.
  - apply (AuthenticateRequest_group_default lenientAuthenticator exampleUserRequest
             exampleUserBucket exampleUserSession "alice").
    + vm_compute. reflexivity.
    + reflexivity.
    + left. reflexivity.
    + vm_compute. reflexivity.
    + intros groups. vm_compute. discriminate.
  - apply (AuthenticateRequest_group_default (strictAuthenticator None) exampleUserRequest
             exampleUserBucket exampleUserSession "alice").
    + vm_compute. reflexivity.
    + reflexivity.
    + right. exists exampleToken. split; vm_compute; reflexivity.
    + vm_compute. reflexivity.
    + intros groups. vm_compute. discriminate.
Defined.

End SessionAuthenticatorProperties.

(** ** The bearer-ID-token authenticator *)

Section IDTokenAuthenticatorProperties.
Import Common Oidc Authenticators.

(** The response after the verified token is re-emitted downstream. *)
Lemma Authenticate_verified (s : IDTokenAuthenticator) (w : ResponseWriter) (r : Request)
    (token : IDToken) (m : gmap string ClaimValue) :
  let bearer := GetBearerToken (Header_Get (Http.Header r) (Header s)) in
  bearer <> "" ->
  VerifyWithoutClientId (SessionManager s) bearer = inl token ->
  tokenClaims token = Some m ->
  Authenticate s w r =
    let idHeader :=
      if decide (TokenScheme s ≠ "") then TokenScheme s +:+ " " +:+ bearer else bearer in
    let w := Response_Set w (TokenHeader s) idHeader in
    match m !! UserIDClaim s with
    | Some (ClaimString userID) =>
        ((Some {| Name := userID; UID := "";
                  Groups := match m !! GroupsClaim s with
                            | Some (ClaimList l) => l
                            | _ => []
                            end;
                  Extra := {[ "auth-method" := ["header"] ]} |}, true, None), w)
    | _ => ((Some emptyUser, true, None), w)
    end.
Proof.
  intros bearer Hb Hv Hm. unfold Authenticate. fold bearer.
  destruct (decide (String.length bearer = 0%nat)) as [Hz|_].
  { apply length_zero_empty in Hz. contradiction. }
  rewrite Hv. unfold NewClaims. rewrite Hm. unfold Claims_UserID, Claims_Groups.
  cbn [rawClaims userIDClaim groupsClaim].
  destruct (m !! UserIDClaim s) as [[userID|l]|]; reflexivity.
Qed.

(** C8 (anonymous identity).  A request whose bearer ID token verifies but
    whose claims lack the configured userID claim is handled: the
    authenticator returns the anonymous identity, with an empty name and no
    groups, and no error. *)
Theorem Authenticate_anonymous_without_userID (s : IDTokenAuthenticator)
    (w : ResponseWriter) (r : Request) (token : IDToken) (m : gmap string ClaimValue) :
  GetBearerToken (Header_Get (Http.Header r) (Header s)) <> "" ->
  VerifyWithoutClientId (SessionManager s)
    (GetBearerToken (Header_Get (Http.Header r) (Header s))) = inl token ->
  tokenClaims token = Some m ->
  m !! UserIDClaim s = None ->
  exists w',
    Authenticate s w r =
      ((Some {| Name := ""; UID := ""; Groups := []; Extra := ∅ |}, true, None), w').
Proof.
  intros Hb Hv Hm Hu.
  rewrite (Authenticate_verified s w r token m Hb Hv Hm). cbn zeta. rewrite Hu.
  eexists. reflexivity.
Qed.

Lemma Authenticate_anonymous_without_userID_witness :
  exists w',
    Authenticate (exampleIDTokenAuthenticator {[ "aud" := ClaimString "svc" ]})
      emptyResponse bearerRequest
    = ((Some {| Name := ""; UID := ""; Groups := []; Extra := ∅ |}, true, None), w').
Proof.
  apply (Authenticate_anonymous_without_userID
           (exampleIDTokenAuthenticator {[ "aud" := ClaimString "svc" ]})
           emptyResponse bearerRequest
           {| tokenClaims := Some {[ "aud" := ClaimString "svc" ]} |}
           {[ "aud" := ClaimString "svc" ]}).
  - vm_compute. discriminate.
  - reflexivity.
  - reflexivity.
  - vm_compute. reflexivity.
Defined.

(** C9, as the code has it.  An identity the authenticator returns as
    handled and without error comes from a verified token.  When the token
    carries the userID claim, the identity's extra map has ["auth-method"]
    mapped to [["header"]]; when the claim is absent, the identity is the
    anonymous one and its extra map is empty. *)
Theorem Authenticate_auth_method_extra (s : IDTokenAuthenticator) (w : ResponseWriter)
    (r : Request) (u : User) (w' : ResponseWriter) :
  Authenticate s w r = ((Some u, true, None), w') ->
  exists (token : IDToken) (m : gmap string ClaimValue),
    VerifyWithoutClientId (SessionManager s)
      (GetBearerToken (Header_Get (Http.Header r) (Header s))) = inl token /\
    tokenClaims token = Some m /\
    (forall userID, m !! UserIDClaim s = Some (ClaimString userID) ->
       Name u = userID /\ Extra u !! "auth-method" = Some ["header"]) /\
    (m !! UserIDClaim s = None -> u = emptyUser /\ Extra u !! "auth-method" = None).
Proof.
  intros H. unfold Authenticate in H.
  set (bearer := GetBearerToken (Header_Get (Http.Header r) (Header s))) in *.
  destruct (decide (String.length bearer = 0%nat)) as [Hz|Hnz]; [discriminate|].
  destruct (VerifyWithoutClientId (SessionManager s) bearer) as [token|e] eqn:Hv;
    [|discriminate].
  unfold NewClaims, Claims_UserID, Claims_Groups in H.
  destruct (tokenClaims token) as [m|] eqn:Hm; [|discriminate].
  cbn [rawClaims userIDClaim groupsClaim] in H.
  exists token, m. split; [reflexivity|]. split; [exact Hm|].
  destruct (m !! UserIDClaim s) as [[userID|l]|] eqn:Hu; injection H as <- <-; split.
  - intros ? [= <-]. split; [reflexivity|]. cbn [Extra]. apply lookup_singleton_eq.
  - discriminate.
  - discriminate.
  - discriminate.
  - discriminate.
  - intros _. split; [reflexivity|]. apply lookup_empty.
Qed.

Lemma Authenticate_auth_method_extra_witness :
  Name {| Name := "alice@example.com"; UID := ""; Groups := [];
          Extra := {[ "auth-method" := ["header"] ]} |} = "alice@example.com" /\
  Extra {| Name := "alice@example.com"; UID := ""; Groups := [];
           Extra := {[ "auth-method" := ["header"] ]} |} !! "auth-method"
  = Some ["header"].
Proof.
  destruct (Authenticate_auth_method_extra
              (exampleIDTokenAuthenticator {[ "email" := ClaimString "alice@example.com" ]})
              emptyResponse bearerRequest
              {| Name := "alice@example.com"; UID := ""; Groups := [];
                 Extra := {[ "auth-method" := ["header"] ]} |}
              (Response_Set emptyResponse "X-Auth-Token" "Bearer tok"))
    as (token & m & Hv & Hm & Hyes & _).
  { vm_compute. reflexivity. }
  cbn in Hv. injection Hv as <-. cbn in Hm. injection Hm as <-.
  apply Hyes. vm_compute. reflexivity.
Defined.

(** C9, as it is stated, fails: a token without the userID claim is
    authenticated (handled, no error), and the identity returned has no
    ["auth-method"] entry. *)
Lemma Authenticate_anonymous_has_no_auth_method :
  Authenticate (exampleIDTokenAuthenticator {[ "aud" := ClaimString "svc" ]})
    emptyResponse bearerRequest
  = ((Some emptyUser, true, None), Response_Set emptyResponse "X-Auth-Token" "Bearer tok") /\
  Extra emptyUser !! "auth-method" = None.
Proof. split; vm_compute; reflexivity. Qed.

End IDTokenAuthenticatorProperties.

(** * Further properties of the embedded code *)

(** ** Splitting on the dot *)

Lemma split_go_nonempty (sep s : string) (skip : nat) (cur : string) :
  split_go sep s skip cur <> [].
Proof.
  revert skip cur. induction s as [|c s IH]; intros skip cur; cbn [split_go].
  - discriminate.
  - destruct skip; [|apply IH]. destruct (HasPrefix _ _); [discriminate|apply IH].
Qed.

(** A dot in the text gives at least two parts. *)
Lemma split_go_dot_two_parts (s cur : string) :
  In "."%char (list_ascii_of_string s) ->
  (2 <= length (split_go "." s 0 cur))%nat.
Proof.
  revert cur. induction s as [|c s IH]; intros cur Hin; [destruct Hin|].
  cbn [split_go]. rewrite HasPrefix_dot.
  destruct (decide (c = "."%char)) as [->|Hne].
  - rewrite bool_decide_eq_true_2 by reflexivity. cbn [length String.length Nat.sub].
    pose proof (split_go_nonempty "." s 0 "") as Hn.
    destruct (split_go "." s 0 ""); [contradiction|]. cbn. lia.
  - rewrite bool_decide_eq_false_2 by exact Hne. apply IH.
    destruct Hin as [Heq|Hin]; [congruence|exact Hin].
Qed.

(** The text before the first dot is the first part. *)
Lemma split_go_prefix (a b cur : string) :
  dot_free a ->
  split_go "." (a +:+ "." +:+ b) 0 cur = (cur +:+ a) :: split_go "." b 0 "".
Proof.
  unfold dot_free. revert cur. induction a as [|c a IH]; intros cur Hno.
  - rewrite append_empty_r. reflexivity.
  - rewrite append_cons. cbn [split_go]. rewrite HasPrefix_dot.
    rewrite bool_decide_eq_false_2.
    + rewrite IH.
      * rewrite append_assoc. reflexivity.
      * intros Hin. apply Hno. right. exact Hin.
    + intros ->. apply Hno. left. reflexivity.
Qed.

Lemma Split_two_parts (a b : string) :
  dot_free a -> dot_free b -> Split (a +:+ "." +:+ b) "." = [a; b].
Proof.
  intros Ha Hb. unfold Split. rewrite (split_go_prefix a b "" Ha).
  rewrite (split_go_no_dot b "" Hb). reflexivity.
Qed.

(** ** Random strings *)

Lemma get_In (s : string) (i : nat) (c : ascii) :
  String.get i s = Some c -> In c (list_ascii_of_string s).
Proof.
  revert i. induction s as [|a s IH]; intros i H; [discriminate|].
  destruct i as [|i]; simpl in H.
  - injection H as ->. left. reflexivity.
  - right. exact (IH i H).
Qed.

(** What the loop of [stringWithCharset] puts into the buffer: position [i]
    gets the character that the [i]-th answer of [Intn] selects. *)
Lemma fillWithCharset_chars (n : nat) (cs : string) (rnd : Rand) s rnd' :
  fillWithCharset n cs rnd = Val (s, rnd') ->
  (forall i, (i < n)%nat ->
     String.get i s = String.get (rnd i mod String.length cs) cs) /\
  (forall i, rnd' i = rnd (n + i)%nat).
Proof.
  revert rnd s rnd'. induction n as [|n IH]; intros rnd s rnd' H.
  - cbn in H. injection H as <- <-. split; [intros i Hi; lia|intros i; reflexivity].
  - cbn [fillWithCharset] in H.
    destruct (Intn rnd (String.length cs)) as [[j rnd1]|?] eqn:HI; cbn in H; [|discriminate].
    destruct (byte_at cs j) as [a|?] eqn:Hb; cbn in H; [|discriminate].
    destruct (fillWithCharset n cs rnd1) as [[rest rnd2]|?] eqn:Hrest;
      cbn in H; [|discriminate].
    injection H as <- <-. destruct (IH _ _ _ Hrest) as [Hchars Hrnd].
    unfold Intn in HI. destruct (String.length cs) as [|k] eqn:Hlen; [discriminate HI|].
    injection HI as <- <-.
    unfold byte_at in Hb.
    match type of Hb with
    | context [String.get ?x cs] =>
        destruct (String.get x cs) as [a'|] eqn:Hg; [|discriminate Hb]
    end.
    injection Hb as ->. split.
    + intros [|i] Hi; cbn [String.get].
      * symmetry. exact Hg.
      * rewrite Hchars by lia. reflexivity.
    + intros i. rewrite Hrnd. reflexivity.
Qed.

(** Every character of the filled buffer comes from the character set. *)
Lemma fillWithCharset_in_charset (n : nat) (cs : string) (rnd : Rand) s rnd' c :
  fillWithCharset n cs rnd = Val (s, rnd') ->
  In c (list_ascii_of_string s) -> In c (list_ascii_of_string cs).
Proof.
  revert rnd s rnd'. induction n as [|n IH]; intros rnd s rnd' H Hin.
  - cbn in H. injection H as <- _. destruct Hin.
  - cbn [fillWithCharset] in H.
    destruct (Intn rnd (String.length cs)) as [[i rnd1]|?]; cbn in H; [|discriminate].
    unfold byte_at in H.
    destruct (String.get i cs) as [a|] eqn:Hg; cbn in H; [|discriminate].
    destruct (fillWithCharset n cs rnd1) as [[rest rnd2]|?] eqn:Hrest; cbn in H;
      [|discriminate].
    injection H as <- _. destruct Hin as [<-|Hin].
    + exact (get_In cs i a Hg).
    + exact (IH rnd1 rest rnd2 Hrest Hin).
Qed.


Example stringWithCharset_negative_length :
  stringWithCharset (-1) charset exampleRand
  = Panic "runtime error: makeslice: len out of range".
Proof. reflexivity. Qed.

Example stringWithCharset_empty_charset :
  stringWithCharset 3 "" exampleRand = Panic "invalid argument to Intn".
Proof. reflexivity. Qed.

Example stringWithCharset_three_letters :
  stringWithCharset 3 "ab" exampleRand = Val ("bab", fun i => exampleRand (3 + i)%nat).
Proof. reflexivity. Qed.

(** The nonce of a state never holds a dot. *)
Lemma randString_dot_free (length : Z) (rnd : Rand) (s : string) (rnd' : Rand) :
  randString length rnd = Val (s, rnd') -> dot_free s.
Proof.
  intros H Hin. unfold randString, stringWithCharset in H.
  destruct (length <? 0)%Z; [discriminate|].
  pose proof (fillWithCharset_in_charset _ charset rnd s rnd' _ H Hin) as Hcs.
  vm_compute in Hcs.
  repeat (destruct Hcs as [Hcs|Hcs]; [discriminate Hcs|]). exact Hcs.
Qed.

(** ** [CreateState], further *)

(** [CreateState] dereferences the pointer of the state function before it
    touches the store. *)
Lemma CreateState_nil (r : Request) (w : ResponseWriter) (b : Bucket)
    (sessionDomain : string) (fn : StateFunc) (dyn : bool) (rnd : Rand) :
  fn r = None ->
  CreateState r w b sessionDomain fn dyn rnd
  = Panic "runtime error: invalid memory address or nil pointer dereference".
Proof.
  intros Hfn. unfold CreateState.
  destruct (randString_8_total rnd) as (nonce & rnd1 & Hnonce).
  rewrite Hnonce. cbn. rewrite Hfn. reflexivity.
Qed.

(** [CreateState] over the Session Store, once the nonce is drawn. *)
Lemma CreateState_bucket (r : Request) (w : ResponseWriter) (b : Bucket)
    (sessionDomain : string) (fn : StateFunc) (dyn : bool) (rnd : Rand)
    (nonce : string) (rnd1 : Rand) (st : State) :
  randString 8 rnd = Val (nonce, rnd1) ->
  fn r = Some st ->
  let cookieName := if dyn then oidcStateCookie +:+ "_" +:+ nonce else oidcStateCookie in
  let id := idSource b (issued b) in
  let w1 := SetCookie w {| Http.Name := cookieName; Value := id; MaxAge := stateMaxAge;
                           Path := "/"; Domain := sessionDomain |} in
  let b1 := {| records :=
                 <[id := {| recValues := <[sessionValueState := VState st]> ∅;
                            recTTL := stateMaxAge |}]> (records b);
               idSource := idSource b; issued := S (issued b) |} in
  CreateState r w b sessionDomain fn dyn rnd =
    match Request_Cookie (request_of_first_SetCookie w1) cookieName with
    | None => Val (("", Some (Wrap ErrNoCookie "error trying to save session")),
                   (b1, w1, rnd1))
    | Some c => Val ((if dyn then Value c +:+ "." +:+ nonce else Value c, None),
                     (b1, w1, rnd1))
    end.
Proof.
  intros Hnonce Hfn. cbv zeta. unfold CreateState. rewrite Hnonce. cbn.
  rewrite Hfn. cbn.
  rewrite bucket_Save_new by reflexivity.
  cbn [ID Values SessOptions OptMaxAge OptPath OptDomain name].
  unfold Request_Cookie, request_of_first_SetCookie, SetCookie.
  cbn [Cookies SetCookies RespHeader].
  match goal with
  | |- context [find_cookie ?l ?n] => destruct (find_cookie l n) as [c|]
  end; reflexivity.
Qed.

(** X2.  [CreateState] on a response that carries no [Set-Cookie] line.
    When the state function returns the nil pointer, the call panics on the
    dereference.  Otherwise it succeeds, and everything it does is
    determined: the nonce is the 8 characters that the next 8 answers of
    [Intn] select from the character set; the State of the request is stored
    under the store's next fresh identifier with a TTL of 20 minutes; one
    cookie is added, named by the base name (with ["_"] and the nonce under
    dynamic naming) and carrying that identifier; and the returned state
    value is that identifier, with ["."] and the nonce appended exactly under
    dynamic naming. *)
Theorem CreateState_on_fresh_response (r : Request) (w : ResponseWriter) (b : Bucket)
    (sessionDomain : string) (fn : StateFunc) (dyn : bool) (rnd : Rand) :
  SetCookies w = [] ->
  match fn r with
  | None =>
      CreateState r w b sessionDomain fn dyn rnd
      = Panic "runtime error: invalid memory address or nil pointer dereference"
  | Some st =>
      exists (nonce : string) (rnd1 : Rand),
        String.length nonce = 8%nat /\
        (forall i, (i < 8)%nat ->
           String.get i nonce = String.get (rnd i mod String.length charset) charset) /\
        CreateState r w b sessionDomain fn dyn rnd =
          Val ((if dyn then idSource b (issued b) +:+ "." +:+ nonce
                else idSource b (issued b), None),
               ({| records :=
                     <[idSource b (issued b) :=
                         {| recValues := <[sessionValueState := VState st]> ∅;
                            recTTL := (20 * 60)%Z |}]> (records b);
                   idSource := idSource b; issued := S (issued b) |},
                SetCookie w
                  {| Http.Name := if dyn then oidcStateCookie +:+ "_" +:+ nonce
                                  else oidcStateCookie;
                     Value := idSource b (issued b); MaxAge := (20 * 60)%Z;
                     Path := "/"; Domain := sessionDomain |},
                rnd1))
  end.
Proof.
  intros Hw. destruct (fn r) as [st|] eqn:Hfn; [|exact (CreateState_nil _ _ _ _ _ _ _ Hfn)].
  destruct (randString_8_total rnd) as (nonce & rnd1 & Hnonce).
  exists nonce, rnd1.
  pose proof Hnonce as Hfill. rewrite randString_8 in Hfill.
  split; [exact (fillWithCharset_length _ _ _ _ _ Hfill)|].
  split; [exact (proj1 (fillWithCharset_chars _ _ _ _ _ Hfill))|].
  rewrite (CreateState_bucket r w b sessionDomain fn dyn rnd nonce rnd1 st Hnonce Hfn).
  cbv zeta. unfold Request_Cookie, request_of_first_SetCookie.
  cbn. rewrite Hw. cbn.
  destruct (decide _) as [_|Hn]; [reflexivity|contradiction].
Qed.

Lemma CreateState_on_fresh_response_witness :
  exists (nonce : string) (rnd1 : Rand),
    String.length nonce = 8%nat /\
    (forall i, (i < 8)%nat ->
       String.get i nonce
       = String.get (exampleRand i mod String.length charset) charset) /\
    CreateState (callback "" []) emptyResponse exampleBucket "example.com"
      exampleStateFunc true exampleRand =
      Val (("id0" +:+ "." +:+ nonce, None),
           ({| records :=
                 <["id0" := {| recValues := <[sessionValueState := VState exampleState]> ∅;
                               recTTL := (20 * 60)%Z |}]> (records exampleBucket);
               idSource := idSource exampleBucket; issued := 1 |},
            SetCookie emptyResponse
              {| Http.Name := oidcStateCookie +:+ "_" +:+ nonce;
                 Value := "id0"; MaxAge := (20 * 60)%Z;
                 Path := "/"; Domain := "example.com" |},
            rnd1)).
Proof.
  exact (CreateState_on_fresh_response (callback "" []) emptyResponse exampleBucket
           "example.com" exampleStateFunc true exampleRand eq_refl).
Defined.

Example CreateState_nil_state :
  CreateState (callback "" []) emptyResponse exampleBucket "example.com"
    (fun _ => None) true exampleRand
  = Panic "runtime error: invalid memory address or nil pointer dereference".
Proof. reflexivity. Qed.

Example CreateState_on_fresh_response_example :
  CreateState (callback "" []) emptyResponse exampleBucket "example.com"
    exampleStateFunc true exampleRand
  = Val (("id0.dkryfmta", None),
         ({| records :=
               <["id0" := {| recValues := <[sessionValueState := VState exampleState]> ∅;
                             recTTL := 1200 |}]> (records exampleBucket);
             idSource := idSource exampleBucket; issued := 1 |},
          SetCookie emptyResponse
            {| Http.Name := "oidc_state_csrf_dkryfmta"; Value := "id0"; MaxAge := 1200;
               Path := "/"; Domain := "example.com" |},
          fun i => exampleRand (8 + i)%nat)).
Proof. vm_compute. reflexivity. Qed.


Lemma append_dot_nonempty (a b : string) : a +:+ "." +:+ b <> "".
Proof. destruct a; discriminate. Qed.

(** X3.  A login round trip.  When [CreateState] succeeds on a response that
    carried no cookie and the browser returns the state value together with
    the cookie it was sent, [VerifyState] succeeds, gives back the State of
    the first request and removes the record.  Under dynamic naming the
    session identifier must hold no dot (the parameter is split on dots);
    without it the identifier must not be empty. *)
Theorem CreateState_VerifyState_round_trip (r : Request) (w : ResponseWriter) (b : Bucket)
    (sessionDomain : string) (fn : StateFunc) (dyn : bool) (rnd : Rand)
    (stateValue : string) (b1 : Bucket) (w1 : ResponseWriter) (rnd1 : Rand)
    (r2 : Request) (w2 : ResponseWriter) :
  SetCookies w = [] ->
  (if dyn then dot_free (idSource b (issued b)) else idSource b (issued b) <> "") ->
  CreateState r w b sessionDomain fn dyn rnd = Val ((stateValue, None), (b1, w1, rnd1)) ->
  FormValue r2 "state" = stateValue ->
  Cookies r2 = SetCookies w1 ->
  exists w2',
    VerifyState r2 w2 b1 dyn
    = Val ((fn r, None), (bucket_without b1 (idSource b (issued b)), w2')) /\
    records (bucket_without b1 (idSource b (issued b))) !! idSource b (issued b) = None.
Proof.
  intros Hw Hid Hcreate Hparam Hcookies.
  destruct (fn r) as [st|] eqn:Hfn;
    [|rewrite (CreateState_nil _ _ _ _ _ _ _ Hfn) in Hcreate; discriminate Hcreate].
  destruct (randString_8_total rnd) as (nonce & rnd0 & Hnonce).
  rewrite (CreateState_bucket r w b sessionDomain fn dyn rnd nonce rnd0 st Hnonce Hfn)
    in Hcreate.
  cbv zeta in Hcreate. unfold Request_Cookie, request_of_first_SetCookie in Hcreate.
  cbn in Hcreate. rewrite Hw in Hcreate. cbn in Hcreate.
  destruct (decide _) as [_|Hn] in Hcreate; [|contradiction].
  cbn in Hcreate. injection Hcreate as <- <- <- <-.
  set (cookieName := if dyn then oidcStateCookie +:+ "_" +:+ nonce else oidcStateCookie) in *.
  set (id := idSource b (issued b)) in *.
  exists (SetCookie w2 (droppedCookie cookieName)). split.
  - apply verify_outcome_complete.
    eapply (out_verified _ _ _ _ id cookieName
              {| Http.Name := cookieName; Value := id; MaxAge := stateMaxAge;
                 Path := "/"; Domain := sessionDomain |}).
    + rewrite Hparam. destruct dyn; [apply append_dot_nonempty|exact Hid].
    + rewrite Hparam. subst cookieName. destruct dyn; cbn [state_param_decodes].
      * exists nonce, []. split; [|reflexivity].
        apply Split_two_parts; [exact Hid|]. exact (randString_dot_free 8 rnd _ _ Hnonce).
      * split; reflexivity.
    + unfold Request_Cookie. rewrite Hcookies. cbn. rewrite Hw. cbn.
      destruct (decide (cookieName = cookieName)) as [_|Hn]; [reflexivity|contradiction].
    + reflexivity.
    + cbn [records]. apply lookup_insert_eq.
    + cbn [recValues]. apply lookup_insert_eq.
  - cbn [bucket_without records]. apply lookup_delete_eq.
Qed.

Lemma CreateState_VerifyState_round_trip_witness :
  exists b1 w1 w2',
    VerifyState (callback "id0.dkryfmta" (SetCookies w1)) emptyResponse b1 true
    = Val ((Some exampleState, None), (bucket_without b1 "id0", w2')) /\
    records (bucket_without b1 "id0") !! "id0" = None.
Proof.
  eexists _, _.
  eapply (CreateState_VerifyState_round_trip (callback "" []) emptyResponse exampleBucket
            "example.com" exampleStateFunc true exampleRand "id0.dkryfmta").
  - reflexivity.
  - vm_compute. intuition discriminate.
  - vm_compute. reflexivity.
  - vm_compute. reflexivity.
  - reflexivity.
Defined.

Lemma HasPrefix_append (a b : string) : HasPrefix (a +:+ b) a = true.
Proof.
  induction a as [|c a IH]; [reflexivity|].
  rewrite append_cons. cbn [HasPrefix].
  destruct (decide (c = c)) as [_|Hn]; [exact IH|contradiction].
Qed.

(** X4.  [CreateState] reads the state cookie back from the first
    [Set-Cookie] line of the response.  On a response whose first line sets
    some other cookie it fails with ["error trying to save session"], although
    the State record has been stored and its cookie has been added.  (With a
    state function that returns the nil pointer the call panics before.) *)
Theorem CreateState_fails_behind_other_cookie (r : Request) (w : ResponseWriter)
    (b : Bucket) (sessionDomain : string) (fn : StateFunc) (dyn : bool) (rnd : Rand)
    (c0 : Cookie) (rest : list Cookie) :
  SetCookies w = c0 :: rest ->
  HasPrefix (Http.Name c0) oidcStateCookie = false ->
  match fn r with
  | None =>
      CreateState r w b sessionDomain fn dyn rnd
      = Panic "runtime error: invalid memory address or nil pointer dereference"
  | Some _ =>
      exists b1 w1 rnd1,
        CreateState r w b sessionDomain fn dyn rnd
        = Val (("", Some (Wrap ErrNoCookie "error trying to save session")),
               (b1, w1, rnd1)) /\
        is_Some (records b1 !! idSource b (issued b)) /\
        length (SetCookies w1) = S (length (SetCookies w))
  end.
Proof.
  intros Hw Hpre.
  destruct (fn r) as [st|] eqn:Hfn; [|exact (CreateState_nil _ _ _ _ _ _ _ Hfn)].
  destruct (randString_8_total rnd) as (nonce & rnd0 & Hnonce).
  rewrite (CreateState_bucket r w b sessionDomain fn dyn rnd nonce rnd0 st Hnonce Hfn).
  cbv zeta. unfold Request_Cookie, request_of_first_SetCookie.
  cbn. rewrite Hw. cbn.
  destruct (decide _) as [Heq|_].
  - exfalso. rewrite Heq in Hpre. destruct dyn.
    + rewrite HasPrefix_append in Hpre. discriminate.
    + rewrite <- (append_empty_r oidcStateCookie) in Hpre at 1.
      rewrite HasPrefix_append in Hpre. discriminate.
  - eexists _, _, _. split; [reflexivity|]. split.
    + cbn [records]. rewrite lookup_insert_eq. eexists. reflexivity.
    + cbn. rewrite length_app, Hw. cbn. lia.
Qed.

Lemma CreateState_fails_behind_other_cookie_witness :
  exists b1 w1 rnd1,
    CreateState (callback "" []) (SetCookie emptyResponse (cookie "lang" "en"))
      exampleBucket "example.com" exampleStateFunc false exampleRand
    = Val (("", Some (Wrap ErrNoCookie "error trying to save session")), (b1, w1, rnd1)) /\
    is_Some (records b1 !! "id0") /\
    length (SetCookies w1) = 2%nat.
Proof.
  apply (CreateState_fails_behind_other_cookie (callback "" [])
           (SetCookie emptyResponse (cookie "lang" "en")) exampleBucket "example.com"
           exampleStateFunc false exampleRand (cookie "lang" "en") []).
  - reflexivity.
  - vm_compute. reflexivity.
Defined.

(** ** [VerifyState], further *)

(** A decodable parameter never makes [VerifyState] panic on a well-formed
    store. *)
Lemma VerifyState_decoded_returns (r : Request) (w : ResponseWriter) (b : Bucket)
    (dyn : bool) (v n : string) :
  states_well_formed b ->
  FormValue r "state" <> "" ->
  state_param_decodes dyn (FormValue r "state") v n ->
  exists out, VerifyState r w b dyn = Val out.
Proof.
  intros Hwf Hne Hdec.
  destruct (Request_Cookie r n) as [c|] eqn:Hc.
  - destruct (decide (Value c = v)) as [Hv|Hv].
    + rewrite (VerifyState_bucket_matched r w b dyn v n c Hne Hdec Hc Hv).
      destruct (records b !! v) as [rec|] eqn:Hrec; [|eexists; reflexivity].
      destruct (Hwf v rec Hrec) as [state Hst]. rewrite Hst. eexists. reflexivity.
    + eexists. apply verify_outcome_complete. eapply out_mismatch; eassumption.
  - eexists. apply verify_outcome_complete. eapply out_missing_cookie; eassumption.
Qed.

(** X5.  On a store whose records all hold a State, [VerifyState] panics in
    exactly one situation: dynamic naming is on and the state parameter is
    non-empty and holds no dot.  In every other case it returns. *)
Theorem VerifyState_panics_iff (r : Request) (w : ResponseWriter) (b : Bucket) (dyn : bool) :
  states_well_formed b ->
  ((exists msg, VerifyState r w b dyn = Panic msg) <->
   dyn = true /\ FormValue r "state" <> "" /\ dot_free (FormValue r "state")).
Proof.
  intros Hwf. split.
  - intros [msg Hpanic].
    destruct (decide (FormValue r "state" = "")) as [Hp|Hne].
    { rewrite (VerifyState_missing_parameter r w b dyn Hp) in Hpanic. discriminate. }
    destruct dyn.
    + split; [reflexivity|]. split; [exact Hne|]. intros Hin.
      pose proof (split_go_dot_two_parts (FormValue r "state") "" Hin) as Hlen.
      destruct (split_go "." (FormValue r "state") 0 "") as [|v [|n rest]] eqn:Hs;
        cbn in Hlen; try lia.
      destruct (VerifyState_decoded_returns r w b true v (oidcStateCookie +:+ "_" +:+ n)
                  Hwf Hne) as [out Hout].
      { exists n, rest. split; [exact Hs|reflexivity]. }
      rewrite Hout in Hpanic. discriminate.
    + destruct (VerifyState_decoded_returns r w b false (FormValue r "state")
                  oidcStateCookie Hwf Hne) as [out Hout].
      { split; reflexivity. }
      rewrite Hout in Hpanic. discriminate.
  - intros (-> & Hne & Hno). unfold VerifyState.
    destruct (decide (String.length (FormValue r "state") = 0%nat)) as [Hz|_].
    { apply length_zero_empty in Hz. contradiction. }
    rewrite (Split_no_dot _ Hno). eexists. reflexivity.
Qed.

Lemma VerifyState_panics_iff_witness :
  (exists msg,
     VerifyState (callback "abcdef" [cookie "oidc_state_csrf" "abcdef"])
       emptyResponse exampleBucket true = Panic msg) <->
  true = true /\ FormValue (callback "abcdef" [cookie "oidc_state_csrf" "abcdef"]) "state" <> ""
  /\ dot_free (FormValue (callback "abcdef" [cookie "oidc_state_csrf" "abcdef"]) "state").
Proof.
  apply (VerifyState_panics_iff (callback "abcdef" [cookie "oidc_state_csrf" "abcdef"])
           emptyResponse exampleBucket true).
  intros id rec Hrec. exists exampleState.
  unfold exampleBucket in Hrec. cbn [records] in Hrec.
  apply lookup_singleton_Some in Hrec. destruct Hrec as [_ <-].
  vm_compute. reflexivity.
Defined.

(** X6.  Under dynamic naming only the first two dot-separated parts of the
    state parameter count: two callbacks with the same cookies whose
    parameters agree on the identifier part and on the nonce part get the
    same answer from [VerifyState], whatever follows the nonce. *)
Theorem VerifyState_ignores_further_parts (r1 r2 : Request) (w : ResponseWriter)
    (b : Bucket) (v n : string) (rest1 rest2 : list string) :
  Split (FormValue r1 "state") "." = v :: n :: rest1 ->
  Split (FormValue r2 "state") "." = v :: n :: rest2 ->
  Cookies r1 = Cookies r2 ->
  VerifyState r1 w b true = VerifyState r2 w b true.
Proof.
  intros H1 H2 Hck.
  assert (Hne : forall r rest, Split (FormValue r "state") "." = v :: n :: rest ->
                               FormValue r "state" <> "").
  { intros r rest Hs Hp. rewrite Hp in Hs. discriminate Hs. }
  rewrite (VerifyState_decoded r1 w b true v (oidcStateCookie +:+ "_" +:+ n) (Hne _ _ H1)).
  2: { exists n, rest1. split; [exact H1|reflexivity]. }
  rewrite (VerifyState_decoded r2 w b true v (oidcStateCookie +:+ "_" +:+ n) (Hne _ _ H2)).
  2: { exists n, rest2. split; [exact H2|reflexivity]. }
  cbn [store_Get bucket_Store]. unfold bucket_Get, Request_Cookie. rewrite Hck.
  reflexivity.
Qed.

Lemma VerifyState_ignores_further_parts_witness :
  VerifyState (callback "B.xyz" [cookie "oidc_state_csrf_xyz" "B"]) emptyResponse
    exampleBucket true
  = VerifyState (callback "B.xyz.anything.else" [cookie "oidc_state_csrf_xyz" "B"])
      emptyResponse exampleBucket true.
Proof.
  apply (VerifyState_ignores_further_parts _ _ emptyResponse exampleBucket
           "B" "xyz" [] ["anything"; "else"]).
  - vm_compute. reflexivity.
  - vm_compute. reflexivity.
  - reflexivity.
Defined.

(** X7.  [VerifyState] answers with the missing-parameter error exactly when
    the request has no (or an empty) state parameter, for every store and in
    both naming modes; no other failure is reported under that error. *)
Theorem VerifyState_missing_parameter_iff {Σ : Type} `{!Store Σ} (r : Request)
    (w : ResponseWriter) (store : Σ) (dyn : bool) :
  (exists st, VerifyState r w store dyn = Val ((None, Some ErrMissingParameter), st)) <->
  FormValue r "state" = "".
Proof.
  split.
  - intros [st H].
    destruct (decide (FormValue r "state" = "")) as [Hp|Hne]; [exact Hp|exfalso].
    destruct (VerifyState_returns_decodes r w store dyn _ Hne H) as (v & n & Hdec).
    rewrite (VerifyState_decoded r w store dyn v n Hne Hdec) in H.
    destruct (Request_Cookie r n) as [c|].
    + destruct (decide (v ≠ Value c)).
      { injection H as H _. vm_compute in H. discriminate H. }
      destruct (store_Get store r n) as [session [e|]].
      { discriminate H. }
      destruct (IsNew session).
      { injection H as H _. vm_compute in H. discriminate H. }
      destruct (assert_State _); cbn in H; [|discriminate H].
      destruct (revokeSession w session store) as [[e|] [store' w']]; discriminate H.
    + injection H as H _. unfold ErrMissingCookie, ErrMissingParameter, New in H.
      vm_compute in H. discriminate H.
  - intros Hp. eexists. apply VerifyState_missing_parameter, Hp.
Qed.

(** ** Trimming and the bearer token *)

Lemma trimRight_cons (c : ascii) (s : string) :
  trimRight s <> "" -> trimRight (String c s) = String c (trimRight s).
Proof. intros H. cbn [trimRight]. destruct (trimRight s); [contradiction|reflexivity]. Qed.

Lemma trimRight_idempotent (s : string) : trimRight (trimRight s) = trimRight s.
Proof.
  induction s as [|c s IH]; [reflexivity|].
  cbn [trimRight]. destruct (trimRight s) as [|a t] eqn:Ht.
  - destruct (isSpace c) eqn:Hc; [reflexivity|].
    cbn [trimRight]. rewrite Hc. reflexivity.
  - rewrite trimRight_cons; rewrite IH; [reflexivity|discriminate].
Qed.

Lemma trimRight_tail (c : ascii) (t : string) :
  trimRight (String c t) = String c t -> trimRight t = t.
Proof.
  cbn [trimRight]. destruct (trimRight t) as [|a t'] eqn:Ht.
  - destruct (isSpace c); [discriminate|]. intros [= <-]. reflexivity.
  - intros [= <-]. reflexivity.
Qed.

Lemma trimRight_drop_chars (n : nat) (s : string) :
  trimRight s = s -> trimRight (drop_chars n s) = drop_chars n s.
Proof.
  revert s. induction n as [|n IH]; intros s Hs; [exact Hs|].
  destruct s as [|c t]; [reflexivity|]. cbn [drop_chars]. apply IH.
  exact (trimRight_tail c t Hs).
Qed.

Lemma append_nonempty_r (p b : string) : b <> "" -> p +:+ b <> "".
Proof. intros Hb. destruct p; [exact Hb|discriminate]. Qed.

Lemma trimRight_append (p b : string) :
  trimRight b = b -> b <> "" -> trimRight (p +:+ b) = p +:+ b.
Proof.
  intros Hb Hne. induction p as [|c p IH]; [exact Hb|].
  rewrite append_cons, trimRight_cons; rewrite IH; [reflexivity|].
  apply append_nonempty_r, Hne.
Qed.

Lemma drop_chars_append (p b : string) : drop_chars (String.length p) (p +:+ b) = b.
Proof. induction p as [|c p IH]; [reflexivity|]. rewrite append_cons. exact IH. Qed.

Lemma trimRight_empty_iff (s : string) : trimRight s = "" <-> all_space s.
Proof.
  unfold all_space. induction s as [|c s IH]; cbn [trimRight list_ascii_of_string].
  - split; [constructor|reflexivity].
  - destruct (trimRight s) as [|a t].
    + destruct (isSpace c) eqn:Hc.
      * split; [|reflexivity]. intros _. constructor; [exact Hc|]. apply IH. reflexivity.
      * split; [discriminate|]. intros H. inversion H; subst. congruence.
    + split; [discriminate|]. intros H. inversion H as [|? ? _ Hs]; subst.
      apply IH in Hs. discriminate Hs.
Qed.

Lemma trimLeft_head (s : string) (c : ascii) (t : string) :
  trimLeft s = String c t -> isSpace c = false.
Proof.
  induction s as [|a s IH]; [discriminate|]. cbn [trimLeft].
  destruct (isSpace a) eqn:Ha; [exact IH|]. intros [= <- _]. exact Ha.
Qed.

Lemma trimLeft_empty_iff (s : string) : trimLeft s = "" <-> all_space s.
Proof.
  unfold all_space. induction s as [|a s IH]; cbn [trimLeft list_ascii_of_string].
  - split; [constructor|reflexivity].
  - destruct (isSpace a) eqn:Ha.
    + split.
      * intros H. constructor; [exact Ha|]. apply IH, H.
      * intros H. apply IH. inversion H; assumption.
    + split; [discriminate|]. intros H. inversion H; subst. congruence.
Qed.

Lemma TrimSpace_empty_iff (s : string) : TrimSpace s = "" <-> all_space s.
Proof.
  unfold TrimSpace. split.
  - intros H. apply trimRight_empty_iff in H. apply trimLeft_empty_iff.
    destruct (trimLeft s) as [|c t] eqn:Hl; [reflexivity|].
    pose proof (trimLeft_head s c t Hl) as Hc.
    unfold all_space in H. inversion H; subst. congruence.
  - intros H. apply trimLeft_empty_iff in H. rewrite H. reflexivity.
Qed.

Lemma TrimSpace_trimmed (s : string) : trimRight (TrimSpace s) = TrimSpace s.
Proof. apply trimRight_idempotent. Qed.

Lemma GetBearerToken_trimmed (v : string) :
  trimRight (Common.GetBearerToken v) = Common.GetBearerToken v.
Proof.
  unfold Common.GetBearerToken, TrimPrefix.
  destruct (HasPrefix (TrimSpace v) "Bearer ").
  - apply trimRight_drop_chars, TrimSpace_trimmed.
  - apply TrimSpace_trimmed.
Qed.

Lemma HasPrefix_exact (s p : string) :
  HasPrefix s p = true -> drop_chars (String.length p) s = "" -> s = p.
Proof.
  revert s. induction p as [|c p IH]; intros s Hpre Hdrop.
  - exact Hdrop.
  - destruct s as [|a s]; [discriminate|]. cbn [HasPrefix] in Hpre.
    destruct (decide (c = a)) as [->|]; [|discriminate].
    f_equal. apply IH; assumption.
Qed.

(** X8.  For a header value made of ASCII bytes, [GetBearerToken] gives the
    empty token exactly when the value holds white space only (tab, line
    feed, vertical tab, form feed, carriage return, space), the absent header
    included; a value that is the bare word ["Bearer"] followed by spaces
    still counts as a token. *)
Theorem GetBearerToken_empty_iff (v : string) :
  ascii_only v ->
  (Common.GetBearerToken v = "" <-> all_space v).
Proof.
  intros _. split.
  - intros H. apply TrimSpace_empty_iff. revert H.
    unfold Common.GetBearerToken, TrimPrefix.
    destruct (HasPrefix (TrimSpace v) "Bearer ") eqn:Hpre; [|exact (fun H => H)].
    intros Hdrop. pose proof (HasPrefix_exact _ _ Hpre Hdrop) as Heq.
    pose proof (TrimSpace_trimmed v) as Ht. rewrite Heq in Ht.
    vm_compute in Ht. discriminate Ht.
  - intros H. apply TrimSpace_empty_iff in H.
    unfold Common.GetBearerToken. rewrite H. reflexivity.
Qed.

Lemma GetBearerToken_empty_iff_witness :
  (Common.GetBearerToken "Bearer  " = "" <-> all_space "Bearer  ") /\
  (Common.GetBearerToken "   " = "" <-> all_space "   ").
Proof.
  split.
  - apply (GetBearerToken_empty_iff "Bearer  ").
    unfold ascii_only. cbn. repeat constructor; vm_compute; lia.
  - apply (GetBearerToken_empty_iff "   ").
    unfold ascii_only. cbn. repeat constructor; vm_compute; lia.
Defined.

(** X9.  The header the ID-token authenticator sets downstream under the
    scheme ["Bearer"] parses back, by [GetBearerToken], to the very token
    that was verified. *)
Theorem GetBearerToken_of_reemitted_header (s : Authenticators.IDTokenAuthenticator)
    (value : string) :
  Authenticators.TokenScheme s = "Bearer" ->
  Common.GetBearerToken value <> "" ->
  Common.GetBearerToken (idHeaderOf s (Common.GetBearerToken value))
  = Common.GetBearerToken value.
Proof.
  intros Hscheme Hne. unfold idHeaderOf. rewrite Hscheme.
  destruct (decide ("Bearer" ≠ "")) as [_|Hn]; [|exfalso; apply Hn; discriminate].
  set (b := Common.GetBearerToken value) in *.
  change ("Bearer" +:+ " " +:+ b) with ("Bearer " +:+ b).
  unfold Common.GetBearerToken at 1.
  assert (Htrim : TrimSpace ("Bearer " +:+ b) = "Bearer " +:+ b).
  { unfold TrimSpace. change (trimLeft ("Bearer " +:+ b)) with ("Bearer " +:+ b).
    apply trimRight_append; [apply GetBearerToken_trimmed|exact Hne]. }
  rewrite Htrim, HasPrefix_append. unfold TrimPrefix. rewrite HasPrefix_append.
  exact (drop_chars_append "Bearer " b).
Qed.

Lemma GetBearerToken_of_reemitted_header_witness :
  Common.GetBearerToken
    (idHeaderOf (exampleIDTokenAuthenticator ∅) (Common.GetBearerToken "  Bearer  tok "))
  = Common.GetBearerToken "  Bearer  tok ".
Proof.
  apply (GetBearerToken_of_reemitted_header (exampleIDTokenAuthenticator ∅)
           "  Bearer  tok ").
  - reflexivity.
  - vm_compute. discriminate.
Defined.

Example GetBearerToken_scheme_only : Common.GetBearerToken "Bearer " = "Bearer".
Proof. vm_compute. reflexivity. Qed.

(** ** The bearer-ID-token authenticator, further *)

Section IDTokenAuthenticatorFurther.
Import Common Oidc Authenticators.

(** X10.  [Authenticate] never returns an error.  It handles the request
    exactly when the header holds a non-empty bearer token that the verifier
    accepts and whose claims can be decoded; then it returns an identity and
    sets the downstream token header.  Otherwise it passes: no identity, and
    the response is left as it was. *)
Theorem Authenticate_handles_iff (s : IDTokenAuthenticator) (w : ResponseWriter)
    (r : Request) :
  let bearer := GetBearerToken (Header_Get (Http.Header r) (Header s)) in
  exists (u : option User) (handled : bool) (w' : ResponseWriter),
    Authenticate s w r = ((u, handled, None), w') /\
    (handled = true <->
       bearer <> "" /\
       exists token, VerifyWithoutClientId (SessionManager s) bearer = inl token /\
                     is_Some (tokenClaims token)) /\
    (handled = true ->
       is_Some u /\ w' = Response_Set w (TokenHeader s) (idHeaderOf s bearer)) /\
    (handled = false -> u = None /\ w' = w).
Proof.
  intros bearer. unfold Authenticate. fold bearer.
  destruct (decide (String.length bearer = 0%nat)) as [Hz|Hnz].
  { apply length_zero_empty in Hz. exists None, false, w.
    split; [reflexivity|]. split; [|split]; try discriminate.
    - split; [discriminate|]. intros [Hne _]. contradiction.
    - intros _. split; reflexivity. }
  assert (Hne : bearer <> "") by (intros H; apply Hnz; rewrite H; reflexivity).
  destruct (VerifyWithoutClientId (SessionManager s) bearer) as [token|e] eqn:Hv.
  2: { exists None, false, w. split; [reflexivity|]. split; [|split]; try discriminate.
       - split; [discriminate|]. intros [_ (token & Ht & _)]. discriminate Ht.
       - intros _. split; reflexivity. }
  unfold NewClaims. destruct (tokenClaims token) as [m|] eqn:Hm.
  2: { exists None, false, w. split; [reflexivity|]. split; [|split]; try discriminate.
       - split; [discriminate|]. intros [_ (token' & Ht & Hs)].
         injection Ht as <-. rewrite Hm in Hs. destruct Hs as [? Hs]. discriminate Hs.
       - intros _. split; reflexivity. }
  unfold Claims_UserID. cbn [rawClaims userIDClaim].
  destruct (m !! UserIDClaim s) as [[userID|l]|];
    eexists _, true, _; (split; [reflexivity|]); (split; [|split]); try discriminate;
    try (split; [intros _; split; [exact Hne|]; exists token; rewrite Hm; eauto
                |reflexivity]);
    intros _; (split; [eexists; reflexivity|reflexivity]).
Qed.

(** The response of a handled request. *)
Lemma Authenticate_handled_response (s : IDTokenAuthenticator) (w : ResponseWriter)
    (r : Request) (u : option User) (err : option error) (w' : ResponseWriter) :
  Authenticate s w r = ((u, true, err), w') ->
  w' = Response_Set w (TokenHeader s)
         (idHeaderOf s (GetBearerToken (Header_Get (Http.Header r) (Header s)))).
Proof.
  unfold Authenticate, idHeaderOf.
  destruct (decide (String.length _ = 0%nat)); [discriminate|].
  destruct (VerifyWithoutClientId _ _) as [token|e]; [|discriminate].
  destruct (NewClaims _ _ _) as [claims|e]; [|discriminate].
  destruct (Claims_UserID claims) as [userID [e|]]; intros [= _ _ <-]; reflexivity.
Qed.

(** X11.  The configured header names being keys in canonical form (as
    [Authorization] or [X-Auth-Token] are) and the token header not being
    [Set-Cookie]: when [Authenticate] handles a request, the response holds
    exactly one value under the token header, the bearer token of the request
    behind the configured scheme (or the bare token when no scheme is
    configured); values the header had before are replaced, and no other
    header and no cookie of the response is touched. *)
Theorem Authenticate_sets_token_header (s : IDTokenAuthenticator) (w : ResponseWriter)
    (r : Request) (u : option User) (err : option error) (w' : ResponseWriter) :
  canonical_key (Header s) ->
  canonical_key (TokenHeader s) ->
  TokenHeader s <> "Set-Cookie" ->
  Authenticate s w r = ((u, true, err), w') ->
  RespHeader w' !! TokenHeader s
  = Some [idHeaderOf s (GetBearerToken (Header_Get (Http.Header r) (Header s)))] /\
  (forall key, key <> TokenHeader s -> RespHeader w' !! key = RespHeader w !! key) /\
  SetCookies w' = SetCookies w.
Proof.
  intros _ _ _ H.
  rewrite (Authenticate_handled_response s w r u err w' H).
  unfold Response_Set, Header_Set. cbn [RespHeader SetCookies].
  split; [apply lookup_insert_eq|]. split; [|reflexivity].
  intros key Hkey. apply lookup_insert_ne. congruence.
Qed.

Lemma Authenticate_sets_token_header_witness :
  RespHeader (Response_Set staleResponse "X-Auth-Token" "Bearer tok")
    !! TokenHeader aliceAuthenticator
  = Some [idHeaderOf aliceAuthenticator
            (GetBearerToken (Header_Get (Http.Header bearerRequest)
                               (Header aliceAuthenticator)))] /\
  (forall key, key <> TokenHeader aliceAuthenticator ->
     RespHeader (Response_Set staleResponse "X-Auth-Token" "Bearer tok") !! key
     = RespHeader staleResponse !! key) /\
  SetCookies (Response_Set staleResponse "X-Auth-Token" "Bearer tok")
  = SetCookies staleResponse.
Proof.
  apply (Authenticate_sets_token_header aliceAuthenticator staleResponse bearerRequest
           (Some {| Name := "alice@example.com"; UID := ""; Groups := [];
                    Extra := {[ "auth-method" := ["header"] ]} |})
           None (Response_Set staleResponse "X-Auth-Token" "Bearer tok")).
  - vm_compute. reflexivity.
  - vm_compute. reflexivity.
  - vm_compute. discriminate.
  - vm_compute. reflexivity.
Defined.

Example canonical_key_examples :
  canonical_from true "X-Auth-Token" = true /\
  canonical_from true "Authorization" = true /\
  canonical_from true "x-auth-token" = false /\
  canonical_from true "X-AUTH" = false /\
  canonical_from true "X Auth" = false.
Proof. vm_compute. repeat split. Qed.

End IDTokenAuthenticatorFurther.

(** ** The session authenticator, further *)

Section SessionAuthenticatorFurther.
Import Oidc SessionAuthenticator.

Lemma identityOf_shape {Σ : Type} (session : Session) (backend : Σ) resp handled err b' :
  identityOf session backend = Val ((resp, handled, err), b') ->
  is_Some resp /\ handled = true /\ err = None.
Proof.
  unfold identityOf.
  destruct (assert_string _) as [userID|?]; cbn; [|discriminate].
  intros [= <- <- <- _]. split; [eexists; reflexivity|]. split; reflexivity.
Qed.

(** X12.  Whatever [AuthenticateRequest] returns, an identity comes exactly
    with handled = true, and then without an error; an error, like the pass,
    comes with no identity and handled = false.  So this authenticator never
    reports an error as handled, for any store and any session manager. *)
Theorem AuthenticateRequest_result_shape {Σ : Type} (sa : sessionAuthenticator Σ)
    (r : Request) (backend : Σ) (resp : option Response) (handled : bool)
    (err : option error) (backend' : Σ) :
  AuthenticateRequest sa r backend = Val ((resp, handled, err), backend') ->
  (is_Some resp /\ handled = true /\ err = None) \/
  (resp = None /\ handled = false).
Proof.
  unfold AuthenticateRequest.
  destruct (SessionFromRequest (store sa) backend r) as [session [e|]].
  { intros [= <- <- _ _]. right. split; reflexivity. }
  destruct (IsNew session).
  { intros [= <- <- _ _]. right. split; reflexivity. }
  assert (Hid : identityOf session backend = Val ((resp, handled, err), backend') ->
                (is_Some resp /\ handled = true /\ err = None) \/
                (resp = None /\ handled = false)).
  { intros H. left. exact (identityOf_shape session backend _ _ _ _ H). }
  destruct (strictSessionValidation sa); [|exact Hid].
  destruct (assert_Token _) as [token|?]; cbn; [|discriminate].
  destruct (GetUserInfo (sm sa) token) as [e|]; [|exact Hid].
  destruct (As_RequestError e) as [[[code body] inner]|].
  - destruct (decide (code ≠ StatusUnauthorized)).
    + intros [= <- <- _ _]. right. split; reflexivity.
    + destruct (RevokeSession (sm sa) backend NewRecorder session) as [? [b2 ?]].
      intros [= <- <- _ _]. right. split; reflexivity.
  - intros [= <- <- _ _]. right. split; reflexivity.
Qed.

Lemma AuthenticateRequest_result_shape_witness :
  (exists resp err b',
     AuthenticateRequest lenientAuthenticator exampleUserRequest exampleUserBucket
     = Val ((Some resp, true, err), b') /\
     ((is_Some (Some resp) /\ true = true /\ err = None) \/
      (Some resp = None /\ true = false))) /\
  (exists resp e b',
     AuthenticateRequest (strictAuthenticator (Some (New "connection refused")))
       exampleUserRequest exampleUserBucket
     = Val ((resp, false, Some e), b') /\
     ((is_Some resp /\ false = true /\ Some e = None) \/
      (resp = None /\ false = false))).
Proof.
  split.
  - eexists _, _, _. split; [vm_compute; reflexivity|].
    eapply (AuthenticateRequest_result_shape lenientAuthenticator exampleUserRequest
              exampleUserBucket).
    vm_compute. reflexivity.
  - eexists _, _, _. split; [vm_compute; reflexivity|].
    eapply (AuthenticateRequest_result_shape
              (strictAuthenticator (Some (New "connection refused")))
              exampleUserRequest exampleUserBucket).
    vm_compute. reflexivity.
Defined.

(** X13.  The provider is consulted only in strict mode and only for a
    resolved session: when strict validation is off, or the request has no
    session, or the store fails, the answer of [AuthenticateRequest] is the
    same under every session manager. *)
Theorem AuthenticateRequest_without_provider {Σ : Type} (sa1 sa2 : sessionAuthenticator Σ)
    (r : Request) (backend : Σ) :
  store sa1 = store sa2 ->
  strictSessionValidation sa1 = strictSessionValidation sa2 ->
  (strictSessionValidation sa1 = false \/
   IsNew (fst (SessionFromRequest (store sa1) backend r)) = true \/
   is_Some (snd (SessionFromRequest (store sa1) backend r))) ->
  AuthenticateRequest sa1 r backend = AuthenticateRequest sa2 r backend.
Proof.
  intros Hstore Hstrict Hcase. unfold AuthenticateRequest.
  rewrite <- Hstore, <- Hstrict.
  destruct (SessionFromRequest (store sa1) backend r) as [session [e|]]; [reflexivity|].
  cbn [fst snd] in Hcase.
  destruct (IsNew session); [reflexivity|].
  destruct Hcase as [-> | [Hnew | [? Herr]]]; [reflexivity|discriminate|discriminate].
Qed.

Lemma AuthenticateRequest_without_provider_witness :
  AuthenticateRequest (strictAuthenticator None)
    {| Form := ∅; Http.Header := ∅; Cookies := [] |} exampleUserBucket
  = AuthenticateRequest (strictAuthenticator (Some (New "connection refused")))
      {| Form := ∅; Http.Header := ∅; Cookies := [] |} exampleUserBucket.
Proof.
  apply (AuthenticateRequest_without_provider (strictAuthenticator None)
           (strictAuthenticator (Some (New "connection refused")))).
  - reflexivity.
  - reflexivity.
  - right. left. vm_compute. reflexivity.
Defined.

(** X14.  The type assertions of [AuthenticateRequest] are unchecked.  A
    resolved session that passed validation but does not store its user as
    a string makes it panic; and in strict mode a resolved session that
    stores no token makes it panic before the provider is asked. *)
Theorem AuthenticateRequest_unchecked_assertions {Σ : Type} (sa : sessionAuthenticator Σ)
    (r : Request) (backend : Σ) (session : Session) :
  SessionFromRequest (store sa) backend r = (session, None) ->
  IsNew session = false ->
  ((strictSessionValidation sa = false \/
    exists token, Values session !! UserSessionOAuth2Tokens = Some (VToken token) /\
                  GetUserInfo (sm sa) token = None) ->
   (forall userID, Values session !! UserSessionUserID <> Some (VString userID)) ->
   AuthenticateRequest sa r backend
   = Panic "interface conversion: interface {} is not string") /\
  (strictSessionValidation sa = true ->
   (forall token, Values session !! UserSessionOAuth2Tokens <> Some (VToken token)) ->
   AuthenticateRequest sa r backend
   = Panic "interface conversion: interface {} is not oauth2.Token").
Proof.
  intros Hsess Hnew. unfold AuthenticateRequest. rewrite Hsess, Hnew. split.
  - intros Hvalid Hu.
    assert (Hid : identityOf session backend
                  = Panic "interface conversion: interface {} is not string").
    { unfold identityOf, assert_string.
      destruct (Values session !! UserSessionUserID) as [[|userID| | |]|] eqn:E;
        try reflexivity.
      exfalso. exact (Hu userID eq_refl). }
    destruct Hvalid as [-> | (token & Htok & Hinfo)]; [exact Hid|].
    destruct (strictSessionValidation sa); [|exact Hid].
    rewrite Htok. cbn. rewrite Hinfo. exact Hid.
  - intros -> Htok. unfold assert_Token.
    destruct (Values session !! UserSessionOAuth2Tokens) as [[| | |token|]|] eqn:E;
      try reflexivity.
    exfalso. exact (Htok token eq_refl).
Qed.

Lemma AuthenticateRequest_unchecked_assertions_witness :
  AuthenticateRequest lenientAuthenticator exampleUserRequest namelessUserBucket
  = Panic "interface conversion: interface {} is not string".
Proof.
  apply (AuthenticateRequest_unchecked_assertions lenientAuthenticator exampleUserRequest
           namelessUserBucket namelessUserSession).
  - vm_compute. reflexivity.
  - reflexivity.
  - left. reflexivity.
  - intros userID. vm_compute. discriminate.
Defined.

End SessionAuthenticatorFurther.

(** ** Package [common], further *)

Section CommonFurther.
Import Common.

(** X15.  [Contains] holds exactly when the two lists share an element; so
    it does not depend on which list comes first, and it is false as soon as
    one of them is empty. *)
Theorem Contains_iff_common_element (sli ele : list string) :
  (Contains sli ele = true <-> exists s, In s sli /\ In s ele) /\
  Contains sli ele = Contains ele sli.
Proof.
  assert (Hiff : forall a b, Contains a b = true <-> exists s, In s a /\ In s b).
  { intros a b. unfold Contains. rewrite existsb_exists. split.
    - intros (s & Hs & Hex). apply existsb_exists in Hex.
      destruct Hex as (elem & He & Heq). apply bool_decide_eq_true in Heq. subst elem.
      exists s. split; assumption.
    - intros (s & Ha & Hb). exists s. split; [exact Ha|].
      apply existsb_exists. exists s. split; [exact Hb|].
      apply bool_decide_eq_true. reflexivity. }
  split; [apply Hiff|].
  destruct (Contains sli ele) eqn:H1; destruct (Contains ele sli) eqn:H2; try reflexivity.
  - apply Hiff in H1. destruct H1 as (s & Ha & Hb).
    rewrite <- H2. symmetry. apply Hiff. exists s. split; assumption.
  - apply Hiff in H2. destruct H2 as (s & Ha & Hb).
    rewrite <- H1. apply Hiff. exists s. split; assumption.
Qed.

Lemma append_strings_spec (rest : list SessionValue) (res out : list string) :
  append_strings res rest = Val out <->
  exists l, out = (res ++ l)%list /\ rest = map VString l.
Proof.
  revert res. induction rest as [|elem rest IH]; intros res; cbn [append_strings].
  - split.
    + intros [= <-]. exists []. rewrite app_nil_r. split; reflexivity.
    + intros (l & -> & Hl). destruct l; [|discriminate]. rewrite app_nil_r. reflexivity.
  - destruct elem as [|s| | |]; cbn;
      try (split; [discriminate | intros ([|? ?] & _ & Hl); discriminate Hl]).
    rewrite IH. split.
    + intros (l & -> & ->). exists (s :: l). rewrite <- app_assoc. split; reflexivity.
    + intros ([|s' l] & -> & Hl); [discriminate|]. injection Hl as <- ->.
      exists l. rewrite <- app_assoc. split; reflexivity.
Qed.

Lemma strings_or_other (elems : list SessionValue) :
  (exists l, elems = map VString l) \/
  (exists elem, In elem elems /\ forall s, elem <> VString s).
Proof.
  induction elems as [|elem elems [(l & ->) | (e & Hin & Hno)]].
  - left. exists []. reflexivity.
  - destruct elem as [st|s|g|t|ty].
    2: { left. exists (s :: l). reflexivity. }
    all: right; eexists; split; [left; reflexivity|discriminate].
  - right. exists e. split; [right; exact Hin|exact Hno].
Qed.

(** X16.  [InterfaceSliceToStringSlice] returns a slice exactly when every
    element of the input holds a string, and then returns those strings in
    order; any other element makes it panic.  The nil slice stays nil. *)
Theorem InterfaceSliceToStringSlice_spec (elems : list SessionValue) :
  (forall res, InterfaceSliceToStringSlice (Some elems) = Val res <->
               exists l, res = Some l /\ elems = map VString l) /\
  ((exists msg, InterfaceSliceToStringSlice (Some elems) = Panic msg) <->
   exists elem, In elem elems /\ forall s, elem <> VString s) /\
  InterfaceSliceToStringSlice None = Val None.
Proof.
  assert (Hval : forall res, InterfaceSliceToStringSlice (Some elems) = Val res <->
                             exists l, res = Some l /\ elems = map VString l).
  { intros res. unfold InterfaceSliceToStringSlice.
    destruct (append_strings [] elems) as [out|msg] eqn:Happ; cbn.
    - apply append_strings_spec in Happ. destruct Happ as (l & -> & ->). cbn. split.
      + intros [= <-]. exists l. split; reflexivity.
      + intros (l' & -> & Hl). f_equal. f_equal.
        revert l' Hl. induction l as [|a l IHl]; intros [|a' l'] Hl;
          try discriminate; [reflexivity|].
        injection Hl as -> Hl. f_equal. apply IHl, Hl.
    - split; [discriminate|]. intros (l & -> & ->).
      assert (append_strings [] (map VString l) = Val l) as Hok.
      { apply append_strings_spec. exists l. split; reflexivity. }
      rewrite Hok in Happ. discriminate. }
  split; [exact Hval|]. split; [|reflexivity].
  split.
  - intros [msg Hp].
    destruct (strings_or_other elems) as [(l & Hl) | Hother]; [|exact Hother].
    exfalso.
    assert (InterfaceSliceToStringSlice (Some elems) = Val (Some l)) as Hok.
    { apply Hval. exists l. split; [reflexivity|exact Hl]. }
    rewrite Hok in Hp. discriminate.
  - intros (elem & Hin & Hno).
    destruct (InterfaceSliceToStringSlice (Some elems)) as [res|msg] eqn:Hres;
      [|eexists; reflexivity].
    destruct (proj1 (Hval res) eq_refl) as (l & -> & ->).
    apply in_map_iff in Hin. destruct Hin as (s & <- & _).
    exfalso. exact (Hno s eq_refl).
Qed.





Example createNonce_negative_length :
  createNonce (-1) (countingRead 0) = Panic "runtime error: makeslice: len out of range".
Proof. reflexivity. Qed.

Example createNonce_counting :
  createNonce 5 (countingRead 62) = Val ("89abc", None).
Proof. vm_compute. reflexivity. Qed.

Example createNonce_failing_source :
  createNonce 5 (fun _ => inr (New "entropy exhausted"))
  = Val ("", Some (New "entropy exhausted")).
Proof. reflexivity. Qed.

Lemma all_bytes_complete (b : Byte.byte) : In b all_bytes.
Proof.
  unfold all_bytes. apply in_map_iff. exists (Byte.to_nat b). split.
  - rewrite Byte.of_to_nat. reflexivity.
  - apply in_seq. pose proof (Byte.to_nat_bounded b). lia.
Qed.

(** X18.  The nonce characters are drawn without modulo bias: [nonceChars]
    has 64 characters, all different, and each of them is the image of
    exactly 4 of the 256 byte values. *)
Theorem createNonce_no_modulo_bias :
  String.length nonceChars = 64%nat /\
  NoDup (list_ascii_of_string nonceChars) /\
  (forall b, In b all_bytes) /\
  length all_bytes = 256%nat /\
  Forall (fun c => length (bytes_giving c) = 4%nat) (list_ascii_of_string nonceChars).
Proof.
  split; [reflexivity|]. split.
  { apply (bool_decide_unpack _). vm_compute. exact I. }
  split; [exact all_bytes_complete|]. split; [reflexivity|].
  assert (H : forallb (fun c => (length (bytes_giving c) =? 4)%nat)
                (list_ascii_of_string nonceChars) = true)
    by (vm_compute; reflexivity).
  apply List.Forall_forall. intros c Hc.
  apply Nat.eqb_eq. exact (proj1 (forallb_forall _ _) H c Hc).
Qed.

Lemma split_go_three_parts (h c rest : string) :
  dot_free h -> dot_free c ->
  exists parts, Split (h +:+ "." +:+ c +:+ "." +:+ rest) "." = h :: c :: parts /\
                parts <> [].
Proof.
  intros Hh Hc. unfold Split. rewrite (split_go_prefix h _ "" Hh).
  rewrite (split_go_prefix c rest "" Hc). eexists. split; [reflexivity|].
  apply split_go_nonempty.
Qed.

(** X19.  [ParseJWT] takes the payload from the text between the first and
    the second dot: for a token of at least three dot-separated parts the
    result is the decoding of the second part, or the decoder's error as a
    malformed-payload error, whatever the first part, the signature or any
    further parts are.  It never panics there. *)
Theorem ParseJWT_payload (DecodeString : string -> list Byte.byte + error)
    (h c rest : string) :
  dot_free h -> dot_free c ->
  ParseJWT DecodeString (h +:+ "." +:+ c +:+ "." +:+ rest) =
    match DecodeString c with
    | inl payload => Val (Some payload, None)
    | inr err => Val (None, Some (New ("malformed jwt payload: " +:+ Error err)))
    end.
Proof.
  intros Hh Hc. unfold ParseJWT.
  destruct (split_go_three_parts h c rest Hh Hc) as (parts & -> & Hne).
  destruct parts as [|p parts]; [contradiction|]. cbn.
  destruct (DecodeString c); reflexivity.
Qed.

Lemma ParseJWT_payload_witness :
  ParseJWT acceptingDecoder ("header" +:+ "." +:+ "payload" +:+ "." +:+ "sig.more")
  = Val (Some [], None) /\
  ParseJWT rejectingDecoder ("header" +:+ "." +:+ "payload" +:+ "." +:+ "sig.more")
  = Val (None, Some (New "malformed jwt payload: illegal base64 data")).
Proof.
  split.
  - apply (ParseJWT_payload acceptingDecoder "header" "payload" "sig.more");
      vm_compute; intuition discriminate.
  - apply (ParseJWT_payload rejectingDecoder "header" "payload" "sig.more");
      vm_compute; intuition discriminate.
Defined.

(** X20.  [ParseJWT] rejects a token with fewer than two dots before the
    decoder is asked, and reports how many parts it found: one for a token
    without a dot, two for a token with a single dot. *)
Theorem ParseJWT_too_few_parts (DecodeString : string -> list Byte.byte + error)
    (a b : string) :
  dot_free a -> dot_free b ->
  ParseJWT DecodeString a
  = Val (None, Some (New "malformed jwt, expected 3 parts got 1")) /\
  ParseJWT DecodeString (a +:+ "." +:+ b)
  = Val (None, Some (New "malformed jwt, expected 3 parts got 2")).
Proof.
  intros Ha Hb. unfold ParseJWT.
  rewrite (Split_no_dot a Ha), (Split_two_parts a b Ha Hb). split; reflexivity.
Qed.

Lemma ParseJWT_too_few_parts_witness :
  ParseJWT acceptingDecoder "opaque"
  = Val (None, Some (New "malformed jwt, expected 3 parts got 1")) /\
  ParseJWT acceptingDecoder ("opaque" +:+ "." +:+ "token")
  = Val (None, Some (New "malformed jwt, expected 3 parts got 2")).
Proof.
  apply (ParseJWT_too_few_parts acceptingDecoder "opaque" "token");
    vm_compute; intuition discriminate.
Defined.

End CommonFurther.

(** ** The authenticators enabled in [main] *)

Lemma enabled_insert (m : gmap string bool) (a k : string) :
  Main.enabled (<[a := true]> m) k = bool_decide (a = k) || Main.enabled m k.
Proof.
  unfold Main.enabled. destruct (decide (a = k)) as [->|Hne].
  - rewrite lookup_insert_eq, bool_decide_eq_true_2; reflexivity.
  - rewrite lookup_insert_ne by exact Hne.
    rewrite bool_decide_eq_false_2 by exact Hne. reflexivity.
Qed.

Lemma enabled_foldl (names : list string) (m : gmap string bool) (k : string) :
  Main.enabled (foldl (fun m authenticator => <[authenticator := true]> m) m names) k
  = Main.enabled m k || bool_decide (k ∈ names).
Proof.
  revert m. induction names as [|a names IH]; intros m; cbn [foldl].
  - rewrite bool_decide_eq_false_2 by apply not_elem_of_nil.
    rewrite orb_false_r. reflexivity.
  - rewrite IH, enabled_insert.
    destruct (decide (a = k)) as [->|Hne].
    + rewrite (bool_decide_eq_true_2 (k = k)) by reflexivity.
      rewrite (bool_decide_eq_true_2 (k ∈ k :: names))
        by (apply elem_of_cons; left; reflexivity).
      cbn [orb]. rewrite orb_true_r. reflexivity.
    + rewrite (bool_decide_eq_false_2 (a = k)) by exact Hne. cbn [orb].
      f_equal. apply bool_decide_ext. split.
      * intros H. apply elem_of_cons. right. exact H.
      * intros H. apply elem_of_cons in H. destruct H as [Heq|H]; [congruence|exact H].
Qed.

(** X21.  The chain of authenticators [main] builds depends only on which
    names are configured, not on their order or repetition, and unknown
    names are ignored: it is always the Kubernetes authenticator, then the
    session authenticator, then the ID-token authenticator, each present
    exactly when its name is configured. *)
Theorem authenticators_fixed_order (names : list string) :
  Main.authenticators names
  = List.filter (fun k => bool_decide (k ∈ names)) ["kubernetes"; "session"; "idtoken"].
Proof.
  unfold Main.authenticators, Main.enabledAuthenticators.
  rewrite !enabled_foldl. unfold Main.enabled. rewrite !lookup_empty. cbn [default orb].
  cbn [List.filter].
  destruct (bool_decide ("kubernetes" ∈ names));
    destruct (bool_decide ("session" ∈ names));
    destruct (bool_decide ("idtoken" ∈ names)); reflexivity.
Qed.

Example authenticators_example :
  Main.authenticators ["idtoken"; "session"; "ldap"; "idtoken"] = ["session"; "idtoken"].
Proof. vm_compute. reflexivity. Qed.
